(** * Eye-tracked input: the gaze/blink core and the key actuation

    A shallow embedding of [src/vision/gaze_tracker.py],
    [src/input/keyboard_controller.py] and the frame loop of [src/main.py].

    Conventions of the embedding.
    - Python floats are modelled by exact rationals ([Q]); comparisons are the
      boolean tests of [QArith].  Rounding is therefore idealised.
    - [time.time()] is an input: every function that reads the clock takes
      the value read as an argument.
    - Methods of an object take the object's state and return the new state
      next to the result; key presses and releases sent to the operating
      system are returned as a list of events.
    - The constants assigned once in [__init__] and never written again are
      top-level definitions. *)

From Stdlib Require Import QArith Qabs List Bool Arith ZArith Lia Lqa Sorted.
Import ListNotations.
Open Scope Q_scope.

(** ** Numbers *)

Definition Qlt_bool (x y : Q) : bool := negb (Qle_bool y x).

(** Python's two-argument [min] and [max]: the first argument wins ties. *)
Definition py_min (a b : Q) : Q := if Qlt_bool b a then b else a.
Definition py_max (a b : Q) : Q := if Qlt_bool a b then b else a.

(** Python's [sum]: starts from 0 and adds from the left. *)
Definition py_sum (xs : list Q) : Q := fold_left Qplus xs 0.

(** [len(xs)] used as a number. *)
Definition py_len {A} (xs : list A) : Q := inject_Z (Z.of_nat (length xs)).

(** ** Landmarks, points and arrays of points *)

Record Landmark := { lm_x : Q; lm_y : Q }.

(** [np.array([x, y])]. *)
Definition Point := (Q * Q)%type.

(** A column [points[:, k]] of an array of points. *)
Definition col0 (points : list Point) : list Q := map fst points.
Definition col1 (points : list Point) : list Q := map snd points.

(** [a.min()], [a.max()], [a.argmin()], [a.argmax()] on a one-dimensional
    array; [argmin] and [argmax] return the first position of the extreme
    value.  The arrays of this program are never empty (see
    [_get_points_from_indices]); the value on the empty list is a filler. *)
Definition arr_min (a : list Q) : Q :=
  match a with [] => 0 | x :: xs => fold_left py_min xs x end.
Definition arr_max (a : list Q) : Q :=
  match a with [] => 0 | x :: xs => fold_left py_max xs x end.

Fixpoint argmin_from (best : Q) (besti i : nat) (a : list Q) : nat :=
  match a with
  | [] => besti
  | y :: ys => if Qlt_bool y best then argmin_from y i (S i) ys
               else argmin_from best besti (S i) ys
  end.
Fixpoint argmax_from (best : Q) (besti i : nat) (a : list Q) : nat :=
  match a with
  | [] => besti
  | y :: ys => if Qlt_bool best y then argmax_from y i (S i) ys
               else argmax_from best besti (S i) ys
  end.
Definition arr_argmin (a : list Q) : nat :=
  match a with [] => 0%nat | x :: xs => argmin_from x 0 1 xs end.
Definition arr_argmax (a : list Q) : nat :=
  match a with [] => 0%nat | x :: xs => argmax_from x 0 1 xs end.

(** [points[i, k]]. *)
Definition at0 (points : list Point) (i : nat) : Q := fst (nth i points (0, 0)).
Definition at1 (points : list Point) (i : nat) : Q := snd (nth i points (0, 0)).

(** [points.mean(axis=0)]. *)
Definition mean_axis0 (points : list Point) : Point :=
  (py_sum (col0 points) / py_len points, py_sum (col1 points) / py_len points).

(** ** GazeTracker *)

Definition blink_threshold : Q := 0.18.
Definition blink_cooldown : Q := 0.15.
Definition baseline_max_samples : nat := 30.
Definition min_samples : nat := 10.
Definition gaze_threshold : Q := 0.015.

Inductive Direction := LEFT | RIGHT | CENTER.

(** The dict built by [get_bounds]. *)
Record EyeBounds := {
  b_left : Point;
  b_right : Point;
  b_top : Point;
  b_bottom : Point
}.

Record GazeTracker := {
  left_eye_indices : list nat;
  right_eye_indices : list nat;
  left_iris_indices : list nat;
  right_iris_indices : list nat;
  previous_eye_ratio : option Q;
  last_blink_time : Q;
  baseline_ratios : list Q;
  baseline_avg : option Q
}.

Definition set_blink (self : GazeTracker) (prev : option Q) (last : Q) : GazeTracker :=
  {| left_eye_indices := left_eye_indices self;
     right_eye_indices := right_eye_indices self;
     left_iris_indices := left_iris_indices self;
     right_iris_indices := right_iris_indices self;
     previous_eye_ratio := prev;
     last_blink_time := last;
     baseline_ratios := baseline_ratios self;
     baseline_avg := baseline_avg self |}.

Definition set_baseline (self : GazeTracker) (ratios : list Q) (avg : option Q) : GazeTracker :=
  {| left_eye_indices := left_eye_indices self;
     right_eye_indices := right_eye_indices self;
     left_iris_indices := left_iris_indices self;
     right_iris_indices := right_iris_indices self;
     previous_eye_ratio := previous_eye_ratio self;
     last_blink_time := last_blink_time self;
     baseline_ratios := ratios;
     baseline_avg := avg |}.

(** [_extract_indices_from_connections]: the end points of the connections,
    as a sorted list without repetition. *)
Fixpoint insert_index (i : nat) (l : list nat) : list nat :=
  match l with
  | [] => [i]
  | j :: l' => if (i <? j)%nat then i :: l
               else if (i =? j)%nat then l
               else j :: insert_index i l'
  end.

Definition _extract_indices_from_connections (connections : list (nat * nat)) : list nat :=
  fold_left (fun indices connection =>
               insert_index (snd connection) (insert_index (fst connection) indices))
            connections [].

(** [__init__], given the four connection tables of the face-mesh library. *)
Definition GazeTracker_init (left_eye right_eye left_iris right_iris : list (nat * nat))
  : GazeTracker :=
  {| left_eye_indices := _extract_indices_from_connections left_eye;
     right_eye_indices := _extract_indices_from_connections right_eye;
     left_iris_indices := _extract_indices_from_connections left_iris;
     right_iris_indices := _extract_indices_from_connections right_iris;
     previous_eye_ratio := None;
     last_blink_time := 0;
     baseline_ratios := [];
     baseline_avg := None |}.

(** A frame dimension argument ([None] or an int) is true when it is a
    non-zero int. *)
Definition dim_true (d : option Z) : bool :=
  match d with Some z => negb (z =? 0)%Z | None => false end.
Definition dim_val (d : option Z) : Q :=
  match d with Some z => inject_Z z | None => 0 end.

Definition _get_landmark_point (landmarks : list Landmark) (idx : nat)
           (image_width image_height : option Z) : option Point :=
  if (length landmarks <=? idx)%nat then None
  else
    let landmark := nth idx landmarks {| lm_x := 0; lm_y := 0 |} in
    if dim_true image_width && dim_true image_height then
      Some (lm_x landmark * dim_val image_width, lm_y landmark * dim_val image_height)
    else Some (lm_x landmark, lm_y landmark).

(** The loop of [_get_points_from_indices]: the points of the indices in
    range, in order. *)
Fixpoint collect_points (landmarks : list Landmark) (indices : list nat)
         (image_width image_height : option Z) : list Point :=
  match indices with
  | [] => []
  | idx :: rest =>
      match _get_landmark_point landmarks idx image_width image_height with
      | Some point => point :: collect_points landmarks rest image_width image_height
      | None => collect_points landmarks rest image_width image_height
      end
  end.

Definition _get_points_from_indices (landmarks : list Landmark) (indices : list nat)
           (image_width image_height : option Z) : option (list Point) :=
  match collect_points landmarks indices image_width image_height with
  | [] => None
  | points => Some points
  end.

(** The landmarks argument of the public methods is [None] or a sequence;
    [not landmarks] holds for [None] and for the empty sequence. *)
Definition Landmarks := option (list Landmark).

Definition get_iris_positions (self : GazeTracker) (landmarks : Landmarks)
           (image_width image_height : option Z) : option Point * option Point :=
  match landmarks with
  | None | Some [] => (None, None)
  | Some lms =>
      match _get_points_from_indices lms (left_iris_indices self) image_width image_height,
            _get_points_from_indices lms (right_iris_indices self) image_width image_height with
      | Some left_points, Some right_points =>
          (Some (mean_axis0 left_points), Some (mean_axis0 right_points))
      | _, _ => (None, None)
      end
  end.

Definition get_bounds (points : list Point) : EyeBounds :=
  {| b_left := (arr_min (col0 points), at1 points (arr_argmin (col0 points)));
     b_right := (arr_max (col0 points), at1 points (arr_argmax (col0 points)));
     b_top := (at0 points (arr_argmin (col1 points)), arr_min (col1 points));
     b_bottom := (at0 points (arr_argmax (col1 points)), arr_max (col1 points)) |}.

Definition get_eye_boundaries (self : GazeTracker) (landmarks : Landmarks)
           (image_width image_height : option Z) : option EyeBounds * option EyeBounds :=
  match landmarks with
  | None | Some [] => (None, None)
  | Some lms =>
      match _get_points_from_indices lms (left_eye_indices self) image_width image_height,
            _get_points_from_indices lms (right_eye_indices self) image_width image_height with
      | Some left_points, Some right_points =>
          (Some (get_bounds left_points), Some (get_bounds right_points))
      | _, _ => (None, None)
      end
  end.

(** [detect_blink]; [current_time] is the value of [time.time()]. *)
Definition detect_blink (self : GazeTracker) (landmarks : Landmarks) (current_time : Q)
  : bool * GazeTracker :=
  match landmarks with
  | None | Some [] => (false, self)
  | Some lms =>
      match _get_points_from_indices lms (left_eye_indices self) None None,
            _get_points_from_indices lms (right_eye_indices self) None None with
      | Some left_points, Some right_points =>
          if (length left_points =? 0)%nat || (length right_points =? 0)%nat
          then (false, self)
          else
            let left_vertical := arr_max (col1 left_points) - arr_min (col1 left_points) in
            let right_vertical := arr_max (col1 right_points) - arr_min (col1 right_points) in
            let min_vertical := py_min left_vertical right_vertical in
            let left_horizontal := arr_max (col0 left_points) - arr_min (col0 left_points) in
            let right_horizontal := arr_max (col0 right_points) - arr_min (col0 right_points) in
            let avg_horizontal := (left_horizontal + right_horizontal) / 2.0 in
            if Qeq_bool avg_horizontal 0 then (false, self)
            else
              let normalized_opening := min_vertical / avg_horizontal in
              let is_blinking := Qlt_bool normalized_opening blink_threshold in
              let was_open :=
                match previous_eye_ratio self with
                | None => true
                | Some previous => Qle_bool blink_threshold previous
                end in
              if is_blinking && was_open
                 && Qlt_bool blink_cooldown (current_time - last_blink_time self)
              then (true, set_blink self (Some normalized_opening) current_time)
              else (false, set_blink self (Some normalized_opening) (last_blink_time self))
      | _, _ => (false, self)
      end
  end.

Definition calculate_horizontal_ratio (iris_pos : option Point) (eye_bounds : option EyeBounds)
  : option Q :=
  match iris_pos, eye_bounds with
  | Some iris, Some bounds =>
      let eye_width := fst (b_right bounds) - fst (b_left bounds) in
      if Qlt_bool (Qabs eye_width) 1e-6 then Some 0.5
      else
        let ratio := (fst iris - fst (b_left bounds)) / eye_width in
        Some (py_max 0.0 (py_min 1.0 ratio))
  | _, _ => None
  end.

Definition _update_baseline (self : GazeTracker) (avg_ratio : Q) : GazeTracker :=
  let appended := baseline_ratios self ++ [avg_ratio] in
  let ratios := if (baseline_max_samples <? length appended)%nat
                then tl appended else appended in
  let avg := if (min_samples <=? length ratios)%nat
             then Some (py_sum ratios / py_len ratios)
             else baseline_avg self in
  set_baseline self ratios avg.

(** [get_gaze_direction]; the result [None] is the direction UNKNOWN. *)
Definition get_gaze_direction (self : GazeTracker) (landmarks : Landmarks)
           (image_width image_height : option Z) : option Direction * GazeTracker :=
  let '(left_iris, right_iris) := get_iris_positions self landmarks image_width image_height in
  let '(left_bounds, right_bounds) := get_eye_boundaries self landmarks image_width image_height in
  match left_iris, right_iris, left_bounds, right_bounds with
  | Some _, Some _, Some _, Some _ =>
      match calculate_horizontal_ratio left_iris left_bounds,
            calculate_horizontal_ratio right_iris right_bounds with
      | Some left_ratio, Some right_ratio =>
          let avg_ratio := (left_ratio + right_ratio) / 2.0 in
          let self' := _update_baseline self avg_ratio in
          match baseline_avg self' with
          | None => (Some CENTER, self')
          | Some baseline =>
              let deviation := avg_ratio - baseline in
              if Qlt_bool (Qabs deviation) gaze_threshold then (Some CENTER, self')
              else if Qlt_bool deviation 0 then (Some LEFT, self')
              else (Some RIGHT, self')
          end
      | _, _ => (None, self)
      end
  | _, _, _, _ => (None, self)
  end.

(** *** Values observed inside the two per-frame methods

    The claims speak about locals of [detect_blink] and
    [get_gaze_direction].  The next definitions name them; the lemmas
    [detect_blink_unfold] and [get_gaze_direction_unfold] below show that the
    methods compute exactly these values. *)

(** The locals [(min_vertical, avg_horizontal)] of [detect_blink], when the
    call gets as far as computing them. *)
Definition eye_extents (self : GazeTracker) (landmarks : Landmarks) : option (Q * Q) :=
  match landmarks with
  | None | Some [] => None
  | Some lms =>
      match _get_points_from_indices lms (left_eye_indices self) None None,
            _get_points_from_indices lms (right_eye_indices self) None None with
      | Some left_points, Some right_points =>
          if (length left_points =? 0)%nat || (length right_points =? 0)%nat
          then None
          else
            let left_vertical := arr_max (col1 left_points) - arr_min (col1 left_points) in
            let right_vertical := arr_max (col1 right_points) - arr_min (col1 right_points) in
            let left_horizontal := arr_max (col0 left_points) - arr_min (col0 left_points) in
            let right_horizontal := arr_max (col0 right_points) - arr_min (col0 right_points) in
            Some (py_min left_vertical right_vertical,
                  (left_horizontal + right_horizontal) / 2.0)
      | _, _ => None
      end
  end.

(** The local [normalized_opening] of [detect_blink], when the call is not
    degenerate. *)
Definition frame_opening (self : GazeTracker) (landmarks : Landmarks) : option Q :=
  match eye_extents self landmarks with
  | Some (min_vertical, avg_horizontal) =>
      if Qeq_bool avg_horizontal 0 then None else Some (min_vertical / avg_horizontal)
  | None => None
  end.

(** Lines 127-137 of [detect_blink]: the decision on a normalized opening. *)
Definition blink_decide (self : GazeTracker) (normalized_opening current_time : Q)
  : bool * GazeTracker :=
  let is_blinking := Qlt_bool normalized_opening blink_threshold in
  let was_open :=
    match previous_eye_ratio self with
    | None => true
    | Some previous => Qle_bool blink_threshold previous
    end in
  if is_blinking && was_open
     && Qlt_bool blink_cooldown (current_time - last_blink_time self)
  then (true, set_blink self (Some normalized_opening) current_time)
  else (false, set_blink self (Some normalized_opening) (last_blink_time self)).

(** The local [avg_ratio] of [get_gaze_direction], when the call gets as far
    as computing it. *)
Definition frame_avg_ratio (self : GazeTracker) (landmarks : Landmarks)
           (image_width image_height : option Z) : option Q :=
  let '(left_iris, right_iris) := get_iris_positions self landmarks image_width image_height in
  let '(left_bounds, right_bounds) := get_eye_boundaries self landmarks image_width image_height in
  match left_iris, right_iris, left_bounds, right_bounds with
  | Some _, Some _, Some _, Some _ =>
      match calculate_horizontal_ratio left_iris left_bounds,
            calculate_horizontal_ratio right_iris right_bounds with
      | Some left_ratio, Some right_ratio => Some ((left_ratio + right_ratio) / 2.0)
      | _, _ => None
      end
  | _, _, _, _ => None
  end.

(** Lines 178-189 of [get_gaze_direction]: baseline update and classification
    of an average ratio. *)
Definition classify (self : GazeTracker) (avg_ratio : Q) : option Direction * GazeTracker :=
  let self' := _update_baseline self avg_ratio in
  match baseline_avg self' with
  | None => (Some CENTER, self')
  | Some baseline =>
      let deviation := avg_ratio - baseline in
      if Qlt_bool (Qabs deviation) gaze_threshold then (Some CENTER, self')
      else if Qlt_bool deviation 0 then (Some LEFT, self')
      else (Some RIGHT, self')
  end.

(** A run of [detect_blink] over frames [(landmarks, time)]: the results in
    order, and the final state. *)
Fixpoint detect_blinks (self : GazeTracker) (frames : list (Landmarks * Q))
  : list bool * GazeTracker :=
  match frames with
  | [] => ([], self)
  | (landmarks, t) :: rest =>
      let '(b, self') := detect_blink self landmarks t in
      let '(bs, self'') := detect_blinks self' rest in
      (b :: bs, self'')
  end.

(** A run of [_update_baseline] over samples. *)
Definition update_baselines (self : GazeTracker) (samples : list Q) : GazeTracker :=
  fold_left _update_baseline samples self.

(** ** KeyboardController *)

Inductive Key := Key_up | Key_left | Key_right.

(** A call of [keyboard.press] or [keyboard.release]. *)
Inductive KeyEvent := Press (k : Key) | Release (k : Key).

Definition Key_eqb (a b : Key) : bool :=
  match a, b with
  | Key_up, Key_up | Key_left, Key_left | Key_right, Key_right => true
  | _, _ => false
  end.

Definition opt_Key_eqb (a b : option Key) : bool :=
  match a, b with
  | None, None => true
  | Some x, Some y => Key_eqb x y
  | _, _ => false
  end.

Record KeyboardController := {
  jump_hold_duration : Q;
  current_key : option Key;
  last_direction : option Direction;
  last_blink_state : bool;
  jump_start_time : option Q;
  jump_key_pressed : bool
}.

Definition KeyboardController_init (hold : Q) : KeyboardController :=
  {| jump_hold_duration := hold;
     current_key := None;
     last_direction := None;
     last_blink_state := false;
     jump_start_time := None;
     jump_key_pressed := false |}.

(** [update]; [current_time] is the value of [time.time()].  The result is
    [None] when the call raises: [current_time - self.jump_start_time] with
    [jump_start_time] equal to [None]. *)
Definition update (self : KeyboardController) (direction : option Direction)
           (is_blink : bool) (current_time : Q)
  : option (KeyboardController * list KeyEvent) :=
  (* blink: lines 26-40 *)
  let jump :=
    if is_blink && negb (last_blink_state self) then
      Some (Some current_time, true, [Press Key_up])
    else if jump_key_pressed self then
      match jump_start_time self with
      | None => None
      | Some start =>
          if Qle_bool (jump_hold_duration self) (current_time - start)
          then Some (None, false, [Release Key_up])
          else Some (jump_start_time self, jump_key_pressed self, [])
      end
    else Some (jump_start_time self, jump_key_pressed self, []) in
  match jump with
  | None => None
  | Some (start', pressed', jump_events) =>
      (* direction: lines 44-53 *)
      let '(last_direction', active_direction) :=
        match direction with
        | Some CENTER => (None, Some CENTER)
        | Some LEFT => (Some LEFT, Some LEFT)
        | Some RIGHT => (Some RIGHT, Some RIGHT)
        | None => (last_direction self, last_direction self)
        end in
      let target_key :=
        match active_direction with
        | Some LEFT => Some Key_left
        | Some RIGHT => Some Key_right
        | _ => None
        end in
      (* lines 63-72 *)
      let '(current_key', key_events) :=
        if negb (opt_Key_eqb target_key (current_key self)) then
          (target_key,
           match current_key self with Some k => [Release k] | None => [] end
           ++ match target_key with Some k => [Press k] | None => [] end)
        else (current_key self, []) in
      Some ({| jump_hold_duration := jump_hold_duration self;
               current_key := current_key';
               last_direction := last_direction';
               last_blink_state := is_blink;
               jump_start_time := start';
               jump_key_pressed := pressed' |},
            jump_events ++ key_events)
  end.

Definition release_all (self : KeyboardController) : KeyboardController * list KeyEvent :=
  let '(current_key', key_events) :=
    match current_key self with
    | Some k => (None, [Release k])
    | None => (current_key self, [])
    end in
  let '(pressed', start', blink', jump_events) :=
    if jump_key_pressed self
    then (false, None, false, [Release Key_up])
    else (jump_key_pressed self, jump_start_time self, last_blink_state self, []) in
  ({| jump_hold_duration := jump_hold_duration self;
      current_key := current_key';
      last_direction := None;
      last_blink_state := blink';
      jump_start_time := start';
      jump_key_pressed := pressed' |},
   key_events ++ jump_events).

(** Whether key [k] is down after the events [log] (oldest first), all keys
    being up at the start. *)
Definition key_step (k : Key) (down : bool) (e : KeyEvent) : bool :=
  match e with
  | Press k' => if Key_eqb k k' then true else down
  | Release k' => if Key_eqb k k' then false else down
  end.

Definition key_down (log : list KeyEvent) (k : Key) : bool :=
  fold_left (key_step k) log false.

(** The keys the controller's fields say it holds. *)
Definition held (self : KeyboardController) (k : Key) : bool :=
  opt_Key_eqb (Some k) (current_key self) || (Key_eqb k Key_up && jump_key_pressed self).

(** The key [update] aims at for an active direction. *)
Definition direction_key (active_direction : option Direction) : option Key :=
  match active_direction with
  | Some LEFT => Some Key_left
  | Some RIGHT => Some Key_right
  | _ => None
  end.

(** ** The frame loop of [main] *)

(** The program state across iterations; [keyboard] is the sequence of events
    sent to the operating system so far.  Rendering reads the tracker and
    writes nothing, and is left out. *)
Record App := {
  tracker : GazeTracker;
  keyboard_controller : KeyboardController;
  keyboard_enabled : bool;
  keyboard : list KeyEvent
}.

(** What one iteration reads from outside: the landmarks of the first face
    ([None] when [results.multi_face_landmarks] is empty), the frame shape,
    the clock at the two calls that read it, and the key returned by
    [cv2.waitKey(1) & 0xFF]. *)
Record FrameInput := {
  multi_face_landmarks : option (list Landmark);
  frame_w : Z;
  frame_h : Z;
  time_blink : Q;
  time_update : Q;
  key : Z
}.

Definition main_init (left_eye right_eye left_iris right_iris : list (nat * nat)) : App :=
  {| tracker := GazeTracker_init left_eye right_eye left_iris right_iris;
     keyboard_controller := KeyboardController_init 0.6;
     keyboard_enabled := false;
     keyboard := [] |}.

(** The per-frame decision record of the core: [detect_blink] first, then
    [get_gaze_direction]. *)
Definition frame_decision (self : GazeTracker) (fr : FrameInput) (lms : list Landmark)
  : option Direction * bool * GazeTracker :=
  let landmarks := Some lms in
  let '(is_blink, self1) := detect_blink self landmarks (time_blink fr) in
  let '(direction, self2) :=
    get_gaze_direction self1 landmarks (Some (frame_w fr)) (Some (frame_h fr)) in
  (direction, is_blink, self2).

(** The direction the core reports on a frame; without a face it is UNKNOWN. *)
Definition frame_direction (a : App) (fr : FrameInput) : option Direction :=
  match multi_face_landmarks fr with
  | Some lms => fst (fst (frame_decision (tracker a) fr lms))
  | None => None
  end.

(** One iteration of the [while] loop after a successful [cap.read()].  The
    result is [None] when the iteration raises, and otherwise the new state
    with [true] when the loop goes on ([false]: the key was [q]). *)
Definition loop_body (a : App) (fr : FrameInput) : option (App * bool) :=
  let acted :=
    match multi_face_landmarks fr with
    | Some lms =>
        let '(direction, is_blink, tracker') := frame_decision (tracker a) fr lms in
        if keyboard_enabled a then
          match update (keyboard_controller a) direction is_blink (time_update fr) with
          | Some (kc, events) => Some (tracker', kc, events)
          | None => None
          end
        else
          let '(kc, events) := release_all (keyboard_controller a) in
          Some (tracker', kc, events)
    | None =>
        let '(kc, events) := release_all (keyboard_controller a) in
        Some (tracker a, kc, events)
    end in
  match acted with
  | None => None
  | Some (tracker', kc, events) =>
      let enabled' :=
        if (key fr =? 113)%Z then keyboard_enabled a
        else if negb (key fr =? 255)%Z && negb (keyboard_enabled a) then true
        else keyboard_enabled a in
      Some ({| tracker := tracker';
               keyboard_controller := kc;
               keyboard_enabled := enabled';
               keyboard := keyboard a ++ events |},
            negb (key fr =? 113)%Z)
  end.

(** The states the loop can be in at the start of an iteration. *)
Inductive reachable (a0 : App) : App -> Prop :=
| reachable_start : reachable a0 a0
| reachable_step (a : App) (fr : FrameInput) (a' : App) :
    reachable a0 a -> loop_body a fr = Some (a', true) -> reachable a0 a'.

(** A run of the loop over a list of frames. *)
Fixpoint run_loop (a : App) (frames : list FrameInput) : option App :=
  match frames with
  | [] => Some a
  | fr :: rest =>
      match loop_body a fr with
      | Some (a', true) => run_loop a' rest
      | _ => None
      end
  end.

(** No input is held: the controller's fields say so, and no key is down at
    the operating system. *)
Definition all_released (a : App) : Prop :=
  current_key (keyboard_controller a) = None
  /\ jump_key_pressed (keyboard_controller a) = false
  /\ forall k, key_down (keyboard a) k = false.

(** ** Concrete data for the examples

    The connection tables are those of MediaPipe's face mesh, a library
    outside the repository; only the examples use them, the general theorems
    hold for any tables. *)

Definition FACEMESH_LEFT_EYE : list (nat * nat) :=
  [(263, 249); (249, 390); (390, 373); (373, 374); (374, 380); (380, 381);
   (381, 382); (382, 362); (263, 466); (466, 388); (388, 387); (387, 386);
   (386, 385); (385, 384); (384, 398); (398, 362)]%nat.
Definition FACEMESH_RIGHT_EYE : list (nat * nat) :=
  [(33, 7); (7, 163); (163, 144); (144, 145); (145, 153); (153, 154);
   (154, 155); (155, 133); (33, 246); (246, 161); (161, 160); (160, 159);
   (159, 158); (158, 157); (157, 173); (173, 133)]%nat.
Definition FACEMESH_LEFT_IRIS : list (nat * nat) :=
  [(474, 475); (475, 476); (476, 477); (477, 474)]%nat.
Definition FACEMESH_RIGHT_IRIS : list (nat * nat) :=
  [(469, 470); (470, 471); (471, 472); (472, 469)]%nat.

Definition mesh_tracker : GazeTracker :=
  GazeTracker_init FACEMESH_LEFT_EYE FACEMESH_RIGHT_EYE FACEMESH_LEFT_IRIS FACEMESH_RIGHT_IRIS.

Definition mesh_app : App :=
  main_init FACEMESH_LEFT_EYE FACEMESH_RIGHT_EYE FACEMESH_LEFT_IRIS FACEMESH_RIGHT_IRIS.

Definition mem_index (i : nat) (l : list nat) : bool := existsb (Nat.eqb i) l.

(** Landmark [i] of a schematic face in normalized coordinates.  Both eyes
    are 0.1 wide, centred at x = 0.6 and x = 0.4; the lower lid sits
    [opening / 10] below the upper one, so the normalized opening is
    [opening]; the irises are shifted by [iris_dx] from the eye centres, so
    both horizontal ratios are [0.5 + 10 * iris_dx]. *)
Definition face_landmark (opening iris_dx : Q) (i : nat) : Landmark :=
  if (i =? 362)%nat then {| lm_x := 0.55; lm_y := 0.4 |}
  else if (i =? 263)%nat then {| lm_x := 0.65; lm_y := 0.4 |}
  else if (i =? 374)%nat then {| lm_x := 0.6; lm_y := 0.4 + opening / 10 |}
  else if (i =? 33)%nat then {| lm_x := 0.35; lm_y := 0.4 |}
  else if (i =? 133)%nat then {| lm_x := 0.45; lm_y := 0.4 |}
  else if (i =? 145)%nat then {| lm_x := 0.4; lm_y := 0.4 + opening / 10 |}
  else if mem_index i (left_eye_indices mesh_tracker) then {| lm_x := 0.6; lm_y := 0.4 |}
  else if mem_index i (right_eye_indices mesh_tracker) then {| lm_x := 0.4; lm_y := 0.4 |}
  else if mem_index i (left_iris_indices mesh_tracker) then {| lm_x := 0.6 + iris_dx; lm_y := 0.4 |}
  else if mem_index i (right_iris_indices mesh_tracker) then {| lm_x := 0.4 + iris_dx; lm_y := 0.4 |}
  else {| lm_x := 0.5; lm_y := 0.5 |}.

(** A face of [n] landmarks: 478 with the iris landmarks, 468 without. *)
Definition face (n : nat) (opening iris_dx : Q) : list Landmark :=
  map (face_landmark opening iris_dx) (seq 0 n).

Definition frame_of (lms : option (list Landmark)) (t : Q) (k : Z) : FrameInput :=
  {| multi_face_landmarks := lms;
     frame_w := 640; frame_h := 480;
     time_blink := t; time_update := t;
     key := k |}.

(** ** Statements and data used by the properties *)

(** The observed locals depend on the index tables only, which no method
    changes. *)
Definition same_tables (s1 s2 : GazeTracker) : Prop :=
  left_eye_indices s1 = left_eye_indices s2
  /\ right_eye_indices s1 = right_eye_indices s2
  /\ left_iris_indices s1 = left_iris_indices s2
  /\ right_iris_indices s1 = right_iris_indices s2.

(** The claim C2 as the specification words it: the accessor gives no data as
    soon as the subset is empty or one of its indices is out of range. *)
Definition accessor_rejects_any_bad_index : Prop :=
  forall (landmarks : list Landmark) (indices : list nat) (w h : option Z),
    indices = [] \/ (exists idx, In idx indices /\ (length landmarks <= idx)%nat) ->
    _get_points_from_indices landmarks indices w h = None.

(** A frame whose normalized opening is [v]. *)
Definition opening_is (self : GazeTracker) (fr : Landmarks * Q) (v : Q) : Prop :=
  exists o, frame_opening self (fst fr) = Some o /\ o == v.

Definition edge_frames : list (Landmarks * Q) :=
  [(Some (face 478 0.3 0), 1000);
   (Some (face 478 0.3 0), 1000.03);
   (Some (face 478 0.1 0), 1000.06);
   (Some (face 478 0.1 0), 1000.09);
   (Some (face 478 0.1 0), 1000.12);
   (Some (face 478 0.3 0), 1000.15)].

(** Two open-close cycles 0.1 s apart, then a third one later: the second
    closing is swallowed by the cooldown, the third emits. *)
Definition cycle_frames : list (Landmarks * Q) :=
  [(Some (face 478 0.3 0), 1000);
   (Some (face 478 0.1 0), 1000.05);
   (Some (face 478 0.3 0), 1000.10);
   (Some (face 478 0.1 0), 1000.15);
   (Some (face 478 0.3 0), 1000.5);
   (Some (face 478 0.1 0), 1000.6)].

(** The samples 1, 2, ..., [n]. *)
Definition ramp (n : nat) : list Q := map (fun k => inject_Z (Z.of_nat k)) (seq 1 n).

(** A tracker whose window holds 30 samples equal to 0.5. *)
Definition settled_tracker : GazeTracker :=
  update_baselines mesh_tracker (repeat 0.5 30).

(** The controller's fields and the operating system agree on the keys that
    are down; the directional slot never holds the jump key; a pressed jump
    key has a start time. *)
Definition coherent (a : App) : Prop :=
  (forall k, key_down (keyboard a) k = held (keyboard_controller a) k)
  /\ current_key (keyboard_controller a) <> Some Key_up
  /\ (jump_key_pressed (keyboard_controller a) = true ->
      jump_start_time (keyboard_controller a) <> None).

(** The statement that a frame on which the core reports UNKNOWN ends with
    every input released, for arbitrary landmark sets, the malformed ones
    included. *)
Definition unknown_releases_everything : Prop :=
  forall (left_eye right_eye left_iris right_iris : list (nat * nat))
         (a : App) (fr : FrameInput) (a' : App) (continue : bool),
    reachable (main_init left_eye right_eye left_iris right_iris) a ->
    frame_direction a fr = None ->
    loop_body a fr = Some (a', continue) ->
    all_released a'.

(** Eleven frames: a key is hit on the first, which enables keyboard input;
    ten frames of a centred gaze establish the baseline; on the eleventh the
    irises move left. *)
Definition gaze_left_frames : list FrameInput :=
  frame_of (Some (face 478 0.3 0)) 1000 32
  :: map (fun k => frame_of (Some (face 478 0.3 0)) (1000 + inject_Z (Z.of_nat k) * 0.03) 255)
         (seq 1 9)
  ++ [frame_of (Some (face 478 0.3 (- 0.01))) 1000.3 255].

(** A frame with a face whose iris landmarks are missing. *)
Definition iris_less_frame : FrameInput :=
  frame_of (Some (face 468 0.3 0)) 1000.33 255.

Definition gazing_left_app : App :=
  match run_loop mesh_app gaze_left_frames with
  | Some a => a
  | None => mesh_app
  end.

Definition after_iris_less_app : App :=
  match loop_body gazing_left_app iris_less_frame with
  | Some (a, _) => a
  | None => gazing_left_app
  end.

(** ** Further runs and statements *)

(** Lines 49-51 of [_get_landmark_point]: the point made of a landmark. *)
Definition landmark_point (landmark : Landmark) (image_width image_height : option Z) : Point :=
  if dim_true image_width && dim_true image_height then
    (lm_x landmark * dim_val image_width, lm_y landmark * dim_val image_height)
  else (lm_x landmark, lm_y landmark).

(** A run of [get_gaze_direction] over landmark sets, at one frame size: the
    results in order, and the final state. *)
Fixpoint gaze_directions (self : GazeTracker) (frames : list Landmarks)
         (image_width image_height : option Z) : list (option Direction) * GazeTracker :=
  match frames with
  | [] => ([], self)
  | landmarks :: rest =>
      let '(d, self') := get_gaze_direction self landmarks image_width image_height in
      let '(ds, self'') := gaze_directions self' rest image_width image_height in
      (d :: ds, self'')
  end.

(** Whether [detect_blink] gets as far as a normalized opening on a frame. *)
Definition usable (self : GazeTracker) (fr : Landmarks * Q) : bool :=
  match frame_opening self (fst fr) with Some _ => true | None => false end.

(** A landmark set that has every landmark the tracker's tables name, each
    table naming at least one. *)
Definition well_formed (self : GazeTracker) (lms : list Landmark) : Prop :=
  Forall (fun indices : list nat =>
            indices <> [] /\ Forall (fun idx => (idx < length lms)%nat) indices)
         [left_eye_indices self; right_eye_indices self;
          left_iris_indices self; right_iris_indices self].

(** [cleanup]. *)
Definition cleanup (self : KeyboardController) : KeyboardController * list KeyEvent :=
  release_all self.

(** The end of [main], after the loop: [keyboard_controller.cleanup()]. *)
Definition main_exit (a : App) : App :=
  let '(kc, events) := cleanup (keyboard_controller a) in
  {| tracker := tracker a;
     keyboard_controller := kc;
     keyboard_enabled := keyboard_enabled a;
     keyboard := keyboard a ++ events |}.

(** The states [main] can be in when the loop is left through [q]. *)
Definition left_by_q (a0 a' : App) : Prop :=
  exists a fr, reachable a0 a /\ loop_body a fr = Some (a', false).

Definition is_press (e : KeyEvent) : bool :=
  match e with Press _ => true | Release _ => false end.

(** The window and the average of a tracker that only ever saw ratios equal
    to [r]. *)
Definition settled_at (r : Q) (self : GazeTracker) : Prop :=
  Forall (fun x => x == r) (baseline_ratios self)
  /\ forall v, baseline_avg self = Some v -> v == r.

(** ** Statements and data about established baselines *)

(** The claim C4 as the specification words it: with a full window and the
    baseline average established at [b], the three offsets classify RIGHT,
    LEFT and CENTER. *)
Definition deviation_from_established_baseline : Prop :=
  forall (self : GazeTracker) (b : Q) (landmarks : Landmarks) (w h : option Z) (x : Q),
    length (baseline_ratios self) = 30%nat ->
    (exists v, baseline_avg self = Some v /\ v == b) ->
    frame_avg_ratio self landmarks w h = Some x ->
    (x == b + 0.02 -> fst (get_gaze_direction self landmarks w h) = Some RIGHT)
    /\ (x == b - 0.02 -> fst (get_gaze_direction self landmarks w h) = Some LEFT)
    /\ (x == b + 0.01 -> fst (get_gaze_direction self landmarks w h) = Some CENTER).

(** A tracker that has seen thirty samples: 0 first, then 29 times 15/29.
    The window they leave averages 0.5. *)
Definition skewed_tracker : GazeTracker :=
  update_baselines mesh_tracker (0 :: repeat (15 # 29) 29).

(** A tracker whose window holds twelve samples alternating between 0.4 and
    0.6, of average 0.5. *)
Definition wavering_tracker : GazeTracker :=
  update_baselines mesh_tracker (concat (repeat [0.4; 0.6] 6)).

(** * Properties *)

(** ** Boolean comparisons on rationals *)

Lemma Qlt_bool_iff (x y : Q) : Qlt_bool x y = true <-> x < y.
Proof.
  unfold Qlt_bool. rewrite negb_true_iff, <- not_true_iff_false, Qle_bool_iff.
  split; [apply Qnot_le_lt | apply Qlt_not_le].
Qed.

Lemma Qlt_bool_false_iff (x y : Q) : Qlt_bool x y = false <-> y <= x.
Proof.
  unfold Qlt_bool. rewrite negb_false_iff. apply Qle_bool_iff.
Qed.

Lemma Qle_bool_false_iff (x y : Q) : Qle_bool x y = false <-> y < x.
Proof.
  rewrite <- not_true_iff_false, Qle_bool_iff.
  split; [apply Qnot_le_lt | apply Qlt_not_le].
Qed.

(** Turns the boolean tests among the hypotheses into (in)equalities. *)
Ltac qprops :=
  repeat match goal with
         | H : Qlt_bool _ _ = true |- _ => apply Qlt_bool_iff in H
         | H : Qlt_bool _ _ = false |- _ => apply Qlt_bool_false_iff in H
         | H : Qle_bool _ _ = true |- _ => apply Qle_bool_iff in H
         | H : Qle_bool _ _ = false |- _ => apply Qle_bool_false_iff in H
         | H : Qeq_bool _ _ = true |- _ => apply Qeq_bool_iff in H
         | H : Qeq_bool _ _ = false |- _ => apply Qeq_bool_neq in H
         end.

Lemma Qlt_bool_true (x y : Q) : x < y -> Qlt_bool x y = true.
Proof. apply Qlt_bool_iff. Qed.

Lemma Qlt_bool_false (x y : Q) : y <= x -> Qlt_bool x y = false.
Proof. apply Qlt_bool_false_iff. Qed.

Lemma Qabs_lt_iff (x y : Q) : Qabs x < y <-> - y < x /\ x < y.
Proof. apply Qabs_Qlt_condition. Qed.

(** ** The two per-frame methods, through their observed locals *)

Lemma detect_blink_unfold (self : GazeTracker) (landmarks : Landmarks) (t : Q) :
  detect_blink self landmarks t =
  match frame_opening self landmarks with
  | Some normalized_opening => blink_decide self normalized_opening t
  | None => (false, self)
  end.
Proof.
  unfold detect_blink, frame_opening, eye_extents, blink_decide.
  destruct landmarks as [[|lm lms]|]; try reflexivity.
  destruct (_get_points_from_indices _ (left_eye_indices self) _ _); try reflexivity.
  destruct (_get_points_from_indices _ (right_eye_indices self) _ _); try reflexivity.
  destruct (_ || _); try reflexivity.
  destruct (Qeq_bool _ 0); reflexivity.
Qed.

Lemma detect_blink_degenerate (self : GazeTracker) (landmarks : Landmarks) (t : Q) :
  frame_opening self landmarks = None -> detect_blink self landmarks t = (false, self).
Proof. intros H. rewrite detect_blink_unfold, H. reflexivity. Qed.

Lemma get_gaze_direction_unfold (self : GazeTracker) (landmarks : Landmarks)
      (w h : option Z) :
  get_gaze_direction self landmarks w h =
  match frame_avg_ratio self landmarks w h with
  | Some avg_ratio => classify self avg_ratio
  | None => (None, self)
  end.
Proof.
  unfold get_gaze_direction, frame_avg_ratio, classify.
  destruct (get_iris_positions self landmarks w h) as [[li|] [ri|]];
    destruct (get_eye_boundaries self landmarks w h) as [[lb|] [rb|]]; try reflexivity.
  destruct (calculate_horizontal_ratio (Some li) (Some lb)); try reflexivity.
  destruct (calculate_horizontal_ratio (Some ri) (Some rb)); reflexivity.
Qed.


Lemma same_tables_refl (s : GazeTracker) : same_tables s s.
Proof. repeat split. Qed.

Lemma same_tables_trans (s1 s2 s3 : GazeTracker) :
  same_tables s1 s2 -> same_tables s2 s3 -> same_tables s1 s3.
Proof.
  unfold same_tables. intros (A & B & C & D) (A' & B' & C' & D').
  repeat split; congruence.
Qed.

Lemma frame_opening_tables (s1 s2 : GazeTracker) (landmarks : Landmarks) :
  same_tables s1 s2 -> frame_opening s1 landmarks = frame_opening s2 landmarks.
Proof.
  intros (A & B & _). unfold frame_opening, eye_extents. rewrite A, B. reflexivity.
Qed.

Lemma blink_decide_tables (self : GazeTracker) (o t : Q) :
  same_tables self (snd (blink_decide self o t)).
Proof.
  unfold blink_decide. destruct (_ && _); repeat split.
Qed.

Lemma detect_blink_tables (self : GazeTracker) (landmarks : Landmarks) (t : Q) :
  same_tables self (snd (detect_blink self landmarks t)).
Proof.
  rewrite detect_blink_unfold. destruct (frame_opening self landmarks).
  - apply blink_decide_tables.
  - apply same_tables_refl.
Qed.

(** ** Landmark geometry accessor *)

Lemma _get_landmark_point_None (landmarks : list Landmark) (idx : nat) (w h : option Z) :
  _get_landmark_point landmarks idx w h = None <-> (length landmarks <= idx)%nat.
Proof.
  unfold _get_landmark_point.
  destruct (Nat.leb_spec (length landmarks) idx) as [Hle | Hlt].
  - tauto.
  - destruct (dim_true w && dim_true h); split; intros; try discriminate; lia.
Qed.

Lemma collect_points_length (landmarks : list Landmark) (indices : list nat) (w h : option Z) :
  length (collect_points landmarks indices w h)
  = length (filter (fun idx => (idx <? length landmarks)%nat) indices).
Proof.
  induction indices as [|idx rest IH]; simpl; [reflexivity|].
  destruct (_get_landmark_point landmarks idx w h) eqn:E.
  - assert (idx < length landmarks)%nat as Hlt.
    { destruct (Nat.lt_ge_cases idx (length landmarks)) as [|Hge]; [assumption|].
      apply (_get_landmark_point_None landmarks idx w h) in Hge. congruence. }
    apply Nat.ltb_lt in Hlt. rewrite Hlt. simpl. now rewrite IH.
  - apply _get_landmark_point_None in E.
    apply Nat.ltb_ge in E. rewrite E. exact IH.
Qed.

Lemma collect_points_nil (landmarks : list Landmark) (indices : list nat) (w h : option Z) :
  collect_points landmarks indices w h = []
  <-> forall idx, In idx indices -> (length landmarks <= idx)%nat.
Proof.
  induction indices as [|idx rest IH]; simpl.
  - split; [intros _ ? [] | reflexivity].
  - destruct (_get_landmark_point landmarks idx w h) eqn:E.
    + split; [discriminate|].
      intros H. specialize (H idx (or_introl eq_refl)).
      apply (_get_landmark_point_None landmarks idx w h) in H. congruence.
    + apply _get_landmark_point_None in E. rewrite IH. split.
      * intros H i [<- | Hin]; auto.
      * intros H i Hin. apply H. now right.
Qed.


(** C2, counterexample: with one landmark and the subset [0; 5], index 5 is
    out of range and the accessor still returns the point of index 0. *)
Lemma accessor_keeps_in_range_points : ~ accessor_rejects_any_bad_index.
Proof.
  intros claim.
  specialize (claim [{| lm_x := 0.25; lm_y := 0.75 |}] [0; 5]%nat None None).
  assert (_get_points_from_indices [{| lm_x := 0.25; lm_y := 0.75 |}] [0; 5]%nat None None
          = Some [(0.25, 0.75)]) as run by reflexivity.
  rewrite claim in run; [discriminate|].
  right. exists 5%nat. simpl. split; [tauto | lia].
Qed.

(** The loop of [_get_points_from_indices], in closed form: the points of
    the indices that are in range, in the order of the subset. *)
Lemma collect_points_filter (landmarks : list Landmark) (indices : list nat) (w h : option Z) :
  collect_points landmarks indices w h
  = map (fun idx => landmark_point (nth idx landmarks {| lm_x := 0; lm_y := 0 |}) w h)
        (filter (fun idx => (idx <? length landmarks)%nat) indices).
Proof.
  induction indices as [|idx rest IH]; [reflexivity|].
  cbn [collect_points filter]. unfold _get_landmark_point at 1.
  destruct (Nat.leb_spec (length landmarks) idx) as [Hout | Hin].
  - apply Nat.ltb_ge in Hout. rewrite Hout. exact IH.
  - apply Nat.ltb_lt in Hin. rewrite Hin. cbn [map]. rewrite IH.
    unfold landmark_point. destruct (dim_true w && dim_true h); reflexivity.
Qed.

(** C2, amended: [_get_points_from_indices] is total (it never raises).  Its
    result is made of the indices of the subset that are in range, in the
    order of the subset, the out-of-range indices being skipped: [None] when
    there is none, which includes the empty subset, and otherwise the list
    of the points of those landmarks (their coordinates, multiplied by the
    frame size when both dimensions are given and non-zero). *)
Theorem accessor_none_iff_no_index_in_range
        (landmarks : list Landmark) (indices : list nat) (w h : option Z) :
  let in_range := filter (fun idx => (idx <? length landmarks)%nat) indices in
  let points :=
    map (fun idx => landmark_point (nth idx landmarks {| lm_x := 0; lm_y := 0 |}) w h)
        in_range in
  _get_points_from_indices landmarks indices w h
  = match points with [] => None | _ :: _ => Some points end
  /\ (_get_points_from_indices landmarks indices w h = None
      <-> forall idx, In idx indices -> (length landmarks <= idx)%nat)
  /\ (indices = [] -> _get_points_from_indices landmarks indices w h = None)
  /\ (forall result,
         _get_points_from_indices landmarks indices w h = Some result ->
         result = points /\ result <> []).
Proof.
  intros in_range points. subst in_range points.
  unfold _get_points_from_indices.
  pose proof (collect_points_nil landmarks indices w h) as Hnil.
  rewrite <- (collect_points_filter landmarks indices w h).
  destruct (collect_points landmarks indices w h) as [|p ps] eqn:E.
  - split; [reflexivity|]. split; [|split].
    + split; [intros _; now apply Hnil | reflexivity].
    + reflexivity.
    + discriminate.
  - split; [reflexivity|]. split; [|split].
    + split; [discriminate|]. intros H. apply Hnil in H. discriminate.
    + intros ->. simpl in E. discriminate.
    + intros result [= <-]. split; [reflexivity | discriminate].
Qed.

Lemma accessor_none_iff_no_index_in_range_witness :
  _get_points_from_indices [{| lm_x := 0.25; lm_y := 0.75 |}] [] None None = None
  /\ _get_points_from_indices
       [{| lm_x := 0.25; lm_y := 0.75 |}; {| lm_x := 0.5; lm_y := 0.125 |}]
       [1; 5; 0]%nat (Some 640%Z) (Some 480%Z)
     = Some [(0.5 * 640, 0.125 * 480); (0.25 * 640, 0.75 * 480)].
Proof.
  split.
  - apply (accessor_none_iff_no_index_in_range
             [{| lm_x := 0.25; lm_y := 0.75 |}] [] None None). reflexivity.
  - exact (proj1 (accessor_none_iff_no_index_in_range
                    [{| lm_x := 0.25; lm_y := 0.75 |}; {| lm_x := 0.5; lm_y := 0.125 |}]
                    [1; 5; 0]%nat (Some 640%Z) (Some 480%Z))).
Defined.

(** C8: [calculate_horizontal_ratio] on an iris position and eye bounds
    returns a number between 0 and 1 inclusive, wherever the iris lies; when
    the eye width is below 1e-6 in absolute value, in particular when
    [right.x] equals [left.x], it returns exactly 0.5. *)
Theorem horizontal_ratio_clamped (iris : Point) (bounds : EyeBounds) :
  exists r,
    calculate_horizontal_ratio (Some iris) (Some bounds) = Some r
    /\ 0 <= r /\ r <= 1
    /\ (Qabs (fst (b_right bounds) - fst (b_left bounds)) < 1e-6 -> r = 0.5)
    /\ (fst (b_right bounds) == fst (b_left bounds) -> r = 0.5).
Proof.
  unfold calculate_horizontal_ratio.
  set (eye_width := fst (b_right bounds) - fst (b_left bounds)).
  destruct (Qlt_bool (Qabs eye_width) 1e-6) eqn:Hdeg.
  - exists 0.5. repeat split; try lra; reflexivity.
  - set (ratio := (fst iris - fst (b_left bounds)) / eye_width).
    exists (py_max 0.0 (py_min 1.0 ratio)).
    split; [reflexivity|].
    assert (~ Qabs eye_width < 1e-6) as Hwide.
    { intros H. apply Qlt_bool_iff in H. congruence. }
    unfold py_max, py_min.
    destruct (Qlt_bool ratio 1.0) eqn:H1;
      [destruct (Qlt_bool 0.0 ratio) eqn:H0 | destruct (Qlt_bool 0.0 1.0) eqn:H0];
      qprops; repeat split; try lra; try (intros; exfalso; tauto).
    all: intros Heq; exfalso; apply Hwide.
    all: assert (eye_width == 0) as -> by (unfold eye_width; lra); reflexivity.
Qed.

Lemma horizontal_ratio_clamped_witness :
  (exists r,
      calculate_horizontal_ratio
        (Some (700, 10))
        (Some {| b_left := (352, 192); b_right := (416, 192);
                 b_top := (384, 190); b_bottom := (384, 200) |}) = Some r
      /\ 0 <= r /\ r <= 1)
  /\ calculate_horizontal_ratio
       (Some (700, 10))
       (Some {| b_left := (352, 192); b_right := (352, 192);
                b_top := (352, 192); b_bottom := (352, 192) |}) = Some 0.5.
Proof.
  split.
  - destruct (horizontal_ratio_clamped
                (700, 10)
                {| b_left := (352, 192); b_right := (416, 192);
                   b_top := (384, 190); b_bottom := (384, 200) |})
      as (r & Hr & H0 & H1 & _).
    exists r. repeat split; assumption.
  - destruct (horizontal_ratio_clamped
                (700, 10)
                {| b_left := (352, 192); b_right := (352, 192);
                   b_top := (352, 192); b_bottom := (352, 192) |})
      as (r & Hr & _ & _ & _ & Hsame).
    assert (r = 0.5) as Hhalf by (apply Hsame; reflexivity).
    rewrite Hhalf in Hr. exact Hr.
Defined.

(** ** Gaze estimator: missing data *)

(** C6: when a call of [get_gaze_direction] lacks any required geometry
    (an iris centroid, an eye's bounds, or a horizontal ratio), it returns
    UNKNOWN ([None]) and leaves the tracker, hence the baseline window and
    the baseline average, as they were. *)
Theorem missing_geometry_keeps_baseline
        (self : GazeTracker) (landmarks : Landmarks) (w h : option Z) :
  let iris := get_iris_positions self landmarks w h in
  let bounds := get_eye_boundaries self landmarks w h in
  fst iris = None \/ snd iris = None \/ fst bounds = None \/ snd bounds = None
  \/ calculate_horizontal_ratio (fst iris) (fst bounds) = None
  \/ calculate_horizontal_ratio (snd iris) (snd bounds) = None ->
  get_gaze_direction self landmarks w h = (None, self)
  /\ baseline_ratios (snd (get_gaze_direction self landmarks w h)) = baseline_ratios self
  /\ baseline_avg (snd (get_gaze_direction self landmarks w h)) = baseline_avg self.
Proof.
  intros iris bounds Hmissing.
  assert (get_gaze_direction self landmarks w h = (None, self)) as Hrun.
  { unfold get_gaze_direction. subst iris bounds.
    destruct (get_iris_positions self landmarks w h) as [[li|] [ri|]];
      destruct (get_eye_boundaries self landmarks w h) as [[lb|] [rb|]];
      cbn [fst snd] in Hmissing; try reflexivity.
    destruct (calculate_horizontal_ratio (Some li) (Some lb)) eqn:El;
      destruct (calculate_horizontal_ratio (Some ri) (Some rb)) eqn:Er;
      try reflexivity.
    exfalso. repeat (destruct Hmissing as [Hmissing | Hmissing]; try discriminate). }
  rewrite Hrun. repeat split.
Qed.

(** Without landmarks both methods answer "no signal" and change nothing. *)
Lemma no_landmarks_no_signal (self : GazeTracker) (t : Q) (w h : option Z) :
  detect_blink self None t = (false, self)
  /\ get_gaze_direction self None w h = (None, self)
  /\ detect_blink self (Some []) t = (false, self)
  /\ get_gaze_direction self (Some []) w h = (None, self).
Proof. repeat split. Qed.

(** A face mesh without the iris landmarks: the gaze is UNKNOWN and the
    tracker is untouched. *)
Lemma missing_geometry_keeps_baseline_witness :
  get_gaze_direction mesh_tracker (Some (face 468 0.3 0)) (Some 640%Z) (Some 480%Z)
  = (None, mesh_tracker).
Proof.
  apply (missing_geometry_keeps_baseline
           mesh_tracker (Some (face 468 0.3 0)) (Some 640%Z) (Some 480%Z)).
  left. vm_compute. reflexivity.
Defined.

(** ** Blink detector: effect of one call *)

Lemma blink_decide_previous (self : GazeTracker) (o t : Q) :
  previous_eye_ratio (snd (blink_decide self o t)) = Some o.
Proof. unfold blink_decide. destruct (_ && _); reflexivity. Qed.

(** What a call does to [last_blink_time]: an emitting call sets it to the
    clock, which is then more than the cooldown after the old value; any
    other call keeps it. *)
Lemma blink_decide_last (self : GazeTracker) (o t : Q) :
  (fst (blink_decide self o t) = true
   /\ last_blink_time (snd (blink_decide self o t)) = t
   /\ blink_cooldown < t - last_blink_time self)
  \/ (fst (blink_decide self o t) = false
      /\ last_blink_time (snd (blink_decide self o t)) = last_blink_time self).
Proof.
  unfold blink_decide.
  destruct (Qlt_bool o blink_threshold); simpl; [|right; split; reflexivity].
  destruct (match previous_eye_ratio self with
            | Some previous => Qle_bool blink_threshold previous
            | None => true
            end); simpl; [|right; split; reflexivity].
  destruct (Qlt_bool blink_cooldown (t - last_blink_time self)) eqn:E; simpl.
  - left. apply Qlt_bool_iff in E. repeat split; assumption.
  - right. split; reflexivity.
Qed.

Lemma detect_blink_last (self : GazeTracker) (landmarks : Landmarks) (t : Q) :
  (fst (detect_blink self landmarks t) = true
   /\ last_blink_time (snd (detect_blink self landmarks t)) = t
   /\ blink_cooldown < t - last_blink_time self)
  \/ (fst (detect_blink self landmarks t) = false
      /\ last_blink_time (snd (detect_blink self landmarks t)) = last_blink_time self).
Proof.
  rewrite detect_blink_unfold. destruct (frame_opening self landmarks).
  - apply blink_decide_last.
  - right. split; reflexivity.
Qed.

(** C9: a call of [detect_blink] whose [avg_horizontal] is zero returns
    false and leaves the tracker ([previous_eye_ratio] and [last_blink_time]
    included) unchanged; a call that is not degenerate stores the current
    normalized opening in [previous_eye_ratio], whether it emits or not. *)
Theorem detect_blink_frame_effect
        (self : GazeTracker) (landmarks : Landmarks) (t : Q) :
  (forall min_vertical avg_horizontal,
      eye_extents self landmarks = Some (min_vertical, avg_horizontal) ->
      avg_horizontal == 0 ->
      detect_blink self landmarks t = (false, self)
      /\ previous_eye_ratio (snd (detect_blink self landmarks t)) = previous_eye_ratio self
      /\ last_blink_time (snd (detect_blink self landmarks t)) = last_blink_time self)
  /\ (forall min_vertical avg_horizontal,
         eye_extents self landmarks = Some (min_vertical, avg_horizontal) ->
         ~ avg_horizontal == 0 ->
         previous_eye_ratio (snd (detect_blink self landmarks t))
         = Some (min_vertical / avg_horizontal)).
Proof.
  split; intros mv ah Hext Hah.
  - assert (detect_blink self landmarks t = (false, self)) as Hrun.
    { apply detect_blink_degenerate. unfold frame_opening. rewrite Hext.
      apply Qeq_bool_iff in Hah. now rewrite Hah. }
    rewrite Hrun. repeat split.
  - rewrite detect_blink_unfold. unfold frame_opening. rewrite Hext.
    destruct (Qeq_bool ah 0) eqn:E.
    + apply Qeq_bool_iff in E. contradiction.
    + apply blink_decide_previous.
Qed.

(** A frame whose eye landmarks all coincide is degenerate; the schematic
    face with opening 0.3 is not. *)
Lemma detect_blink_frame_effect_witness :
  detect_blink mesh_tracker (Some (repeat {| lm_x := 0.5; lm_y := 0.5 |} 478)) 1000
  = (false, mesh_tracker)
  /\ previous_eye_ratio (snd (detect_blink mesh_tracker (Some (face 478 0.3 0)) 1000))
     = Some (0.0300 / (200000000 # 2000000000)).
Proof.
  split.
  - apply (proj1 (detect_blink_frame_effect
                    mesh_tracker (Some (repeat {| lm_x := 0.5; lm_y := 0.5 |} 478)) 1000)
                 0.00 (0 # 200000)).
    + vm_compute. reflexivity.
    + reflexivity.
  - apply (proj2 (detect_blink_frame_effect mesh_tracker (Some (face 478 0.3 0)) 1000)
                 0.0300 (200000000 # 2000000000)).
    + vm_compute. reflexivity.
    + vm_compute. discriminate.
Defined.

(** ** Key actuation: [release_all] *)

(** C10: [release_all] is idempotent.  After one call [current_key] is
    [None], [jump_key_pressed] is false and [last_direction] is [None]; a
    second call sends no key event and leaves the state as the first call
    left it, so two calls in a row end in the same state and send the same
    events as one.  This holds in every state of the controller, reachable
    or not. *)
Theorem release_all_idempotent (self : KeyboardController) :
  let once := release_all self in
  let twice := release_all (fst once) in
  current_key (fst once) = None
  /\ jump_key_pressed (fst once) = false
  /\ last_direction (fst once) = None
  /\ snd twice = []
  /\ fst twice = fst once
  /\ snd once ++ snd twice = snd once.
Proof.
  destruct self as [hold [k|] dir blink start [|]]; cbv zeta; unfold release_all; simpl;
    repeat split.
Qed.

(** ** Blink detector: runs *)

Lemma blink_decide_open (self : GazeTracker) (o t : Q) :
  blink_threshold <= o ->
  blink_decide self o t = (false, set_blink self (Some o) (last_blink_time self)).
Proof.
  intros H. unfold blink_decide. now rewrite (Qlt_bool_false _ _ H).
Qed.

Lemma blink_decide_held (self : GazeTracker) (o t previous : Q) :
  previous_eye_ratio self = Some previous -> previous < blink_threshold ->
  blink_decide self o t = (false, set_blink self (Some o) (last_blink_time self)).
Proof.
  intros Hp H. unfold blink_decide. rewrite Hp.
  apply Qle_bool_false_iff in H. rewrite H.
  now rewrite andb_false_r.
Qed.

Lemma blink_decide_emit (self : GazeTracker) (o t : Q) :
  o < blink_threshold ->
  (previous_eye_ratio self = None
   \/ exists previous, previous_eye_ratio self = Some previous /\ blink_threshold <= previous) ->
  blink_cooldown < t - last_blink_time self ->
  blink_decide self o t = (true, set_blink self (Some o) t).
Proof.
  intros Ho Hp Ht. unfold blink_decide.
  rewrite (Qlt_bool_true _ _ Ho), (Qlt_bool_true _ _ Ht).
  destruct Hp as [-> | (p & -> & Hp)]; [reflexivity|].
  apply Qle_bool_iff in Hp. now rewrite Hp.
Qed.


Lemma detect_blinks_cons (self : GazeTracker) (fr : Landmarks * Q)
      (rest : list (Landmarks * Q)) :
  detect_blinks self (fr :: rest)
  = (fst (detect_blink self (fst fr) (snd fr))
       :: fst (detect_blinks (snd (detect_blink self (fst fr) (snd fr))) rest),
     snd (detect_blinks (snd (detect_blink self (fst fr) (snd fr))) rest)).
Proof.
  destruct fr as [landmarks t]. simpl.
  destruct (detect_blink self landmarks t) as [b self']. cbn [fst snd].
  destruct (detect_blinks self' rest) as [bs self'']. reflexivity.
Qed.

(** One step of a run, on a frame of known opening. *)
Lemma detect_blink_step (s0 self : GazeTracker) (fr : Landmarks * Q) (v : Q) :
  same_tables s0 self -> opening_is s0 fr v ->
  exists o, o == v /\ detect_blink self (fst fr) (snd fr) = blink_decide self o (snd fr).
Proof.
  intros Htab (o & Ho & Hv). exists o. split; [exact Hv|].
  rewrite detect_blink_unfold, <- (frame_opening_tables s0 self _ Htab), Ho. reflexivity.
Qed.

(** C3: blink detection is edge-triggered.  From a fresh tracker, six frames
    with normalized openings 0.3, 0.3, 0.1, 0.1, 0.1, 0.3, the cooldown being
    over at the third, make [detect_blink] return true on the third frame
    only: frames 4 and 5 stay below the threshold 0.18 and return false. *)
Theorem blink_edge_triggered
        (left_eye right_eye left_iris right_iris : list (nat * nat))
        (frames : list (Landmarks * Q)) :
  let fresh := GazeTracker_init left_eye right_eye left_iris right_iris in
  Forall2 (opening_is fresh) frames [0.3; 0.3; 0.1; 0.1; 0.1; 0.3] ->
  (forall fr, nth_error frames 2 = Some fr ->
              blink_cooldown < snd fr - last_blink_time fresh) ->
  fst (detect_blinks fresh frames) = [false; false; true; false; false; false].
Proof.
  intros fresh Hopen Hcool.
  repeat match goal with
         | H : Forall2 _ _ (_ :: _) |- _ => inversion H; subst; clear H
         | H : Forall2 _ _ [] |- _ => inversion H; subst; clear H
         end.
  match goal with
  | |- fst (detect_blinks _ [?f1; ?f2; ?f3; ?f4; ?f5; ?f6]) = _ =>
      rename f1 into fr1, f2 into fr2, f3 into fr3, f4 into fr4, f5 into fr5, f6 into fr6
  end.
  specialize (Hcool fr3 eq_refl).
  assert (blink_threshold == 0.18) as Hthr by reflexivity.
  (* frame 1: open *)
  rewrite detect_blinks_cons.
  destruct (detect_blink_step fresh fresh fr1 0.3) as (o1 & Ho1 & ->);
    [apply same_tables_refl | assumption |].
  rewrite (blink_decide_open fresh o1) by lra.
  set (s1 := set_blink fresh (Some o1) (last_blink_time fresh)). cbn [fst snd].
  (* frame 2: open *)
  rewrite detect_blinks_cons.
  destruct (detect_blink_step fresh s1 fr2 0.3) as (o2 & Ho2 & ->);
    [repeat split | assumption |].
  rewrite (blink_decide_open s1 o2) by lra.
  set (s2 := set_blink s1 (Some o2) (last_blink_time s1)). cbn [fst snd].
  (* frame 3: closes, the edge *)
  rewrite detect_blinks_cons.
  destruct (detect_blink_step fresh s2 fr3 0.1) as (o3 & Ho3 & ->);
    [repeat split | assumption |].
  rewrite (blink_decide_emit s2 o3);
    [ | lra | right; exists o2; split; [reflexivity | lra] | exact Hcool ].
  set (s3 := set_blink s2 (Some o3) (snd fr3)). cbn [fst snd].
  (* frame 4: still closed *)
  rewrite detect_blinks_cons.
  destruct (detect_blink_step fresh s3 fr4 0.1) as (o4 & Ho4 & ->);
    [repeat split | assumption |].
  rewrite (blink_decide_held s3 o4 (snd fr4) o3); [ | reflexivity | lra ].
  set (s4 := set_blink s3 (Some o4) (last_blink_time s3)). cbn [fst snd].
  (* frame 5: still closed *)
  rewrite detect_blinks_cons.
  destruct (detect_blink_step fresh s4 fr5 0.1) as (o5 & Ho5 & ->);
    [repeat split | assumption |].
  rewrite (blink_decide_held s4 o5 (snd fr5) o4); [ | reflexivity | lra ].
  set (s5 := set_blink s4 (Some o5) (last_blink_time s4)). cbn [fst snd].
  (* frame 6: open again *)
  rewrite detect_blinks_cons.
  destruct (detect_blink_step fresh s5 fr6 0.3) as (o6 & Ho6 & ->);
    [repeat split | assumption |].
  rewrite (blink_decide_open s5 o6) by lra.
  reflexivity.
Qed.


Lemma blink_edge_triggered_witness :
  fst (detect_blinks mesh_tracker edge_frames) = [false; false; true; false; false; false].
Proof.
  apply (blink_edge_triggered
           FACEMESH_LEFT_EYE FACEMESH_RIGHT_EYE FACEMESH_LEFT_IRIS FACEMESH_RIGHT_IRIS
           edge_frames).
  - unfold edge_frames.
    repeat (apply Forall2_cons;
            [eexists; split; [vm_compute; reflexivity | vm_compute; reflexivity]|]).
    apply Forall2_nil.
  - intros fr [= <-]. vm_compute. reflexivity.
Defined.

(** An emitting call anywhere in a run happens more than the cooldown after
    the [last_blink_time] the run started with. *)
Lemma emission_after_cooldown (frames : list (Landmarks * Q)) :
  forall (self : GazeTracker) (j : nat) (tj : Q),
    nth_error (fst (detect_blinks self frames)) j = Some true ->
    nth_error (map snd frames) j = Some tj ->
    blink_cooldown < tj - last_blink_time self.
Proof.
  induction frames as [|fr rest IH]; intros self j tj Hout Ht.
  - destruct j; discriminate.
  - rewrite detect_blinks_cons in Hout. cbn [fst] in Hout.
    pose proof (detect_blink_last self (fst fr) (snd fr)) as Hlast.
    destruct j as [|j]; simpl in Hout, Ht.
    + injection Hout as Hout. injection Ht as <-.
      destruct Hlast as [(_ & _ & H) | (H & _)]; [exact H | congruence].
    + specialize (IH _ _ _ Hout Ht).
      destruct Hlast as [(_ & Hl & Hc) | (_ & Hl)]; rewrite Hl in IH.
      * unfold blink_cooldown in *. lra.
      * exact IH.
Qed.

(** C5: in every run of [detect_blink], from any state of the tracker, two
    calls that return true are more than the cooldown (0.15 s) apart; hence a
    call made at most 0.15 s after an emitting call returns false, whatever
    the eyes did in between. *)
Theorem blink_cooldown_separation
        (self : GazeTracker) (frames : list (Landmarks * Q))
        (i j : nat) (ti tj : Q) :
  (i < j)%nat ->
  nth_error (map snd frames) i = Some ti ->
  nth_error (map snd frames) j = Some tj ->
  nth_error (fst (detect_blinks self frames)) i = Some true ->
  (nth_error (fst (detect_blinks self frames)) j = Some true -> 0.15 < tj - ti)
  /\ (tj - ti <= 0.15 -> nth_error (fst (detect_blinks self frames)) j = Some false).
Proof.
  revert self i j.
  assert (forall self i j,
             (i < j)%nat ->
             nth_error (map snd frames) i = Some ti ->
             nth_error (map snd frames) j = Some tj ->
             nth_error (fst (detect_blinks self frames)) i = Some true ->
             nth_error (fst (detect_blinks self frames)) j = Some true ->
             0.15 < tj - ti) as Hsep.
  { induction frames as [|fr rest IH]; intros self i j Hij Hti Htj Hi Hj.
    - destruct i; discriminate.
    - rewrite detect_blinks_cons in Hi, Hj. cbn [fst] in Hi, Hj.
      destruct j as [|j]; [lia|].
      destruct i as [|i]; simpl in Hti, Htj, Hi, Hj.
      + injection Hi as Hi. injection Hti as <-.
        pose proof (emission_after_cooldown rest _ _ _ Hj Htj) as Hc.
        destruct (detect_blink_last self (fst fr) (snd fr))
          as [(_ & Hl & _) | (H & _)]; [|congruence].
        rewrite Hl in Hc. exact Hc.
      + apply (IH (snd (detect_blink self (fst fr) (snd fr))) i j); try assumption. lia. }
  intros self i j Hij Hti Htj Hi. split.
  - intros Hj. apply (Hsep self i j); assumption.
  - intros Hclose.
    assert (length (fst (detect_blinks self frames)) = length (map snd frames)) as Hlen.
    { clear. revert self. induction frames as [|fr rest IH]; intros self; [reflexivity|].
      rewrite detect_blinks_cons. simpl. now rewrite IH. }
    destruct (nth_error (fst (detect_blinks self frames)) j) as [[|]|] eqn:Hj.
    + exfalso. specialize (Hsep self i j Hij Hti Htj Hi Hj). lra.
    + reflexivity.
    + exfalso. apply nth_error_None in Hj. rewrite Hlen in Hj.
      apply nth_error_None in Hj. congruence.
Qed.


Lemma blink_cooldown_separation_witness :
  nth_error (fst (detect_blinks mesh_tracker cycle_frames)) 3 = Some false
  /\ 0.15 < 1000.6 - 1000.05.
Proof.
  split.
  - apply (blink_cooldown_separation mesh_tracker cycle_frames 1 3 1000.05 1000.15).
    + lia.
    + reflexivity.
    + reflexivity.
    + vm_compute. reflexivity.
    + vm_compute. discriminate.
  - apply (blink_cooldown_separation mesh_tracker cycle_frames 1 5 1000.05 1000.6).
    + lia.
    + reflexivity.
    + reflexivity.
    + vm_compute. reflexivity.
    + vm_compute. reflexivity.
Defined.

(** ** Baseline window *)

Lemma update_baselines_snoc (self : GazeTracker) (samples : list Q) (x : Q) :
  update_baselines self (samples ++ [x]) = _update_baseline (update_baselines self samples) x.
Proof. unfold update_baselines. now rewrite fold_left_app. Qed.

Lemma _update_baseline_ratios (self : GazeTracker) (x : Q) :
  baseline_ratios (_update_baseline self x)
  = if (baseline_max_samples <? length (baseline_ratios self ++ [x]))%nat
    then tl (baseline_ratios self ++ [x]) else baseline_ratios self ++ [x].
Proof. reflexivity. Qed.

Lemma _update_baseline_avg (self : GazeTracker) (x : Q) :
  baseline_avg (_update_baseline self x)
  = if (min_samples <=? length (baseline_ratios (_update_baseline self x)))%nat
    then Some (py_sum (baseline_ratios (_update_baseline self x))
               / py_len (baseline_ratios (_update_baseline self x)))
    else baseline_avg self.
Proof. reflexivity. Qed.

(** The window after a run from a fresh tracker: the last 30 samples. *)
Lemma baseline_window (le re li ri : list (nat * nat)) (samples : list Q) :
  baseline_ratios (update_baselines (GazeTracker_init le re li ri) samples)
  = skipn (length samples - baseline_max_samples) samples.
Proof.
  induction samples as [|x samples IH] using rev_ind; [reflexivity|].
  rewrite update_baselines_snoc, _update_baseline_ratios, IH.
  rewrite !length_app, length_skipn. cbn [length].
  unfold baseline_max_samples.
  destruct (Nat.ltb_spec 30 (length samples - (length samples - 30) + 1)) as [Hfull | Hroom].
  - assert (30 <= length samples)%nat as Hlen by lia.
    replace (length samples + 1 - 30)%nat with (S (length samples - 30)) by lia.
    rewrite (skipn_app (S (length samples - 30))).
    replace (S (length samples - 30) - length samples)%nat with 0%nat by lia.
    rewrite skipn_O.
    destruct (skipn (length samples - 30) samples) as [|y ys] eqn:E.
    + apply (f_equal (@length Q)) in E. rewrite length_skipn in E. simpl in E. lia.
    + cbn [app tl]. f_equal.
      replace (S (length samples - 30)) with (1 + (length samples - 30))%nat by lia.
      rewrite <- skipn_skipn, E. reflexivity.
  - replace (length samples - 30)%nat with 0%nat by lia.
    replace (length samples + 1 - 30)%nat with 0%nat by lia.
    reflexivity.
Qed.

(** The average after a run from a fresh tracker is defined from the tenth
    sample on, and not before. *)
Lemma baseline_avg_defined (le re li ri : list (nat * nat)) (samples : list Q) :
  baseline_avg (update_baselines (GazeTracker_init le re li ri) samples) = None
  <-> (length samples < min_samples)%nat.
Proof.
  induction samples as [|x samples IH] using rev_ind.
  - simpl. unfold min_samples. split; [lia | reflexivity].
  - rewrite update_baselines_snoc, _update_baseline_avg.
    rewrite <- update_baselines_snoc, baseline_window.
    rewrite length_skipn, length_app. cbn [length].
    unfold baseline_max_samples, min_samples in *.
    destruct (Nat.leb_spec 10 (length samples + 1 - (length samples + 1 - 30))) as [H | H].
    + split; [discriminate | lia].
    + rewrite IH. lia.
Qed.

(** C7: after any number of baseline updates from a fresh tracker the window
    holds at most 30 samples, namely the most recent ones in order, and the
    baseline average is [None] as long as fewer than 10 samples were pushed;
    after 35 samples the window is exactly the last 30 of them. *)
Theorem baseline_window_invariant
        (left_eye right_eye left_iris right_iris : list (nat * nat)) (samples : list Q) :
  let self := update_baselines
                (GazeTracker_init left_eye right_eye left_iris right_iris) samples in
  (length (baseline_ratios self) <= 30)%nat
  /\ ((length samples < 10)%nat -> baseline_avg self = None)
  /\ ((10 <= length samples)%nat -> baseline_avg self <> None)
  /\ baseline_ratios self = skipn (length samples - 30) samples
  /\ (length samples = 35%nat ->
      baseline_ratios self = skipn 5 samples /\ length (baseline_ratios self) = 30%nat).
Proof.
  intros self. subst self.
  pose proof (baseline_window left_eye right_eye left_iris right_iris samples) as Hwin.
  pose proof (baseline_avg_defined left_eye right_eye left_iris right_iris samples) as Havg.
  unfold baseline_max_samples, min_samples in *.
  repeat split.
  - rewrite Hwin, length_skipn. lia.
  - intros H. now apply Havg.
  - intros H Hnone. apply Havg in Hnone. lia.
  - exact Hwin.
  - rewrite Hwin, H. reflexivity.
  - rewrite Hwin, length_skipn, H. reflexivity.
Qed.


Lemma baseline_window_invariant_witness :
  baseline_avg (update_baselines mesh_tracker (ramp 9)) = None
  /\ baseline_avg (update_baselines mesh_tracker (ramp 10)) <> None
  /\ baseline_ratios (update_baselines mesh_tracker (ramp 35)) = skipn 5 (ramp 35)
  /\ length (baseline_ratios (update_baselines mesh_tracker (ramp 35))) = 30%nat.
Proof.
  destruct (baseline_window_invariant
              FACEMESH_LEFT_EYE FACEMESH_RIGHT_EYE FACEMESH_LEFT_IRIS FACEMESH_RIGHT_IRIS
              (ramp 9)) as (_ & Hcold & _).
  destruct (baseline_window_invariant
              FACEMESH_LEFT_EYE FACEMESH_RIGHT_EYE FACEMESH_LEFT_IRIS FACEMESH_RIGHT_IRIS
              (ramp 10)) as (_ & _ & Hwarm & _).
  destruct (baseline_window_invariant
              FACEMESH_LEFT_EYE FACEMESH_RIGHT_EYE FACEMESH_LEFT_IRIS FACEMESH_RIGHT_IRIS
              (ramp 35)) as (_ & _ & _ & _ & Hfull).
  split; [|split].
  - apply Hcold. simpl. lia.
  - apply Hwarm. simpl. lia.
  - apply Hfull. reflexivity.
Defined.

(** ** Deviation classification *)

Lemma py_sum_snoc (l : list Q) (x : Q) : py_sum (l ++ [x]) = py_sum l + x.
Proof. unfold py_sum. now rewrite fold_left_app. Qed.

Lemma py_len_cons {A} (a : A) (l : list A) : py_len (a :: l) == py_len l + 1.
Proof.
  unfold py_len. cbn [length]. rewrite Nat2Z.inj_succ, <- Z.add_1_r, inject_Z_plus.
  reflexivity.
Qed.

Lemma py_len_snoc {A} (l : list A) (a : A) : py_len (l ++ [a]) == py_len l + 1.
Proof.
  unfold py_len. rewrite length_app, Nat2Z.inj_add, inject_Z_plus. reflexivity.
Qed.

Lemma py_len_ge {A} (l : list A) (n : nat) :
  (n <= length l)%nat -> inject_Z (Z.of_nat n) <= py_len l.
Proof.
  intros H. unfold py_len. rewrite <- Zle_Qle. lia.
Qed.

Lemma fold_sum_const (b : Q) (l : list Q) :
  Forall (fun r => r == b) l ->
  forall acc, fold_left Qplus l acc == acc + py_len l * b.
Proof.
  induction 1 as [|r l Hr Hl IH]; intros acc.
  - unfold py_len. cbn [fold_left length].
    change (inject_Z (Z.of_nat 0)) with 0. lra.
  - cbn [fold_left]. rewrite IH, py_len_cons, Hr. lra.
Qed.

Lemma py_sum_const (b : Q) (l : list Q) :
  Forall (fun r => r == b) l -> py_sum l == py_len l * b.
Proof.
  intros H. unfold py_sum. rewrite (fold_sum_const b l H). lra.
Qed.

(** The arithmetic of one classification against a window [m] samples of
    which equal [b], the last one being the current sample [x]. *)
Lemma deviation_bounds (m b x avg : Q) :
  9 <= m -> avg * (m + 1) == m * b + x ->
  (x == b + 0.02 -> 0.015 <= x - avg)
  /\ (x == b - 0.02 -> x - avg <= - 0.015)
  /\ (x == b + 0.01 -> 0 <= x - avg /\ x - avg < 0.015).
Proof.
  intros Hm Havg. split; [|split]; intros Hx; [| |split]; nra.
Qed.

(** The window after pushing [x] on a window of at least 10 samples equal to
    [b]: at least 9 samples equal to [b], then [x]. *)
Lemma pushed_window (self : GazeTracker) (b x : Q) :
  (10 <= length (baseline_ratios self))%nat ->
  Forall (fun r => r == b) (baseline_ratios self) ->
  exists kept,
    baseline_ratios (_update_baseline self x) = kept ++ [x]
    /\ Forall (fun r => r == b) kept
    /\ (9 <= length kept)%nat.
Proof.
  intros Hlen Hall. rewrite _update_baseline_ratios.
  destruct (baseline_max_samples <? length (baseline_ratios self ++ [x]))%nat.
  - destruct (baseline_ratios self) as [|r rs]; [simpl in Hlen; lia|].
    exists rs. cbn [app tl]. split; [reflexivity|]. split.
    + now inversion Hall.
    + simpl in Hlen. lia.
  - exists (baseline_ratios self). split; [reflexivity|]. split; [assumption | lia].
Qed.

(** The case of a constant window: at least 10 samples, for instance a full
    window of 30, all equal to [b].  A frame whose [avg_ratio] is [b + 0.02]
    then classifies RIGHT, [b - 0.02] LEFT and [b + 0.01] CENTER. *)
Theorem deviation_classification
        (self : GazeTracker) (b : Q) (landmarks : Landmarks) (w h : option Z) (x : Q) :
  (10 <= length (baseline_ratios self))%nat ->
  Forall (fun r => r == b) (baseline_ratios self) ->
  frame_avg_ratio self landmarks w h = Some x ->
  (x == b + 0.02 -> fst (get_gaze_direction self landmarks w h) = Some RIGHT)
  /\ (x == b - 0.02 -> fst (get_gaze_direction self landmarks w h) = Some LEFT)
  /\ (x == b + 0.01 -> fst (get_gaze_direction self landmarks w h) = Some CENTER).
Proof.
  intros Hlen Hall Hx.
  rewrite get_gaze_direction_unfold, Hx. unfold classify.
  destruct (pushed_window self b x Hlen Hall) as (kept & Hwin & Hkept & Hm).
  rewrite _update_baseline_avg, Hwin.
  assert ((min_samples <=? length (kept ++ [x]))%nat = true) as ->.
  { apply Nat.leb_le. rewrite length_app. unfold min_samples. simpl. lia. }
  set (avg := py_sum (kept ++ [x]) / py_len (kept ++ [x])).
  assert (9 <= py_len kept) as Hm9 by (apply (py_len_ge kept 9 Hm)).
  assert (avg * (py_len kept + 1) == py_len kept * b + x) as Havg.
  { assert (~ py_len (kept ++ [x]) == 0) as Hn by (rewrite py_len_snoc; lra).
    unfold avg. rewrite py_sum_snoc, (py_sum_const b kept Hkept), <- (py_len_snoc kept x).
    rewrite Qmult_comm. apply Qmult_div_r. exact Hn. }
  destruct (deviation_bounds (py_len kept) b x avg Hm9 Havg) as (Hr & Hl & Hc).
  unfold gaze_threshold.
  split; [|split]; intros Hxb.
  - specialize (Hr Hxb).
    destruct (Qlt_bool (Qabs (x - avg)) 0.015) eqn:E1.
    + apply Qlt_bool_iff, Qabs_lt_iff in E1. lra.
    + destruct (Qlt_bool (x - avg) 0) eqn:E2; [|reflexivity].
      apply Qlt_bool_iff in E2. lra.
  - specialize (Hl Hxb).
    destruct (Qlt_bool (Qabs (x - avg)) 0.015) eqn:E1.
    + apply Qlt_bool_iff, Qabs_lt_iff in E1. lra.
    + destruct (Qlt_bool (x - avg) 0) eqn:E2; [reflexivity|].
      apply Qlt_bool_false_iff in E2. lra.
  - specialize (Hc Hxb).
    destruct (Qlt_bool (Qabs (x - avg)) 0.015) eqn:E1; [reflexivity|].
    exfalso. apply not_true_iff_false in E1. apply E1.
    apply Qlt_bool_iff, Qabs_lt_iff. lra.
Qed.


Lemma deviation_classification_witness :
  fst (get_gaze_direction settled_tracker (Some (face 478 0.3 0.002))
                          (Some 640%Z) (Some 480%Z)) = Some RIGHT
  /\ fst (get_gaze_direction settled_tracker (Some (face 478 0.3 (- 0.002)))
                             (Some 640%Z) (Some 480%Z)) = Some LEFT
  /\ fst (get_gaze_direction settled_tracker (Some (face 478 0.3 0.001))
                             (Some 640%Z) (Some 480%Z)) = Some CENTER.
Proof.
  assert (10 <= length (baseline_ratios settled_tracker))%nat as Hlen
      by (vm_compute; lia).
  assert (Forall (fun r => r == 0.5) (baseline_ratios settled_tracker)) as Hall
      by (vm_compute; repeat constructor).
  pose (ratio_of := fun dx : Q =>
          match frame_avg_ratio settled_tracker (Some (face 478 0.3 dx))
                                (Some 640%Z) (Some 480%Z) with
          | Some v => v
          | None => 0
          end).
  split; [|split].
  - refine (proj1 (deviation_classification
                     settled_tracker 0.5 (Some (face 478 0.3 0.002))
                     (Some 640%Z) (Some 480%Z) (ratio_of 0.002) Hlen Hall _) _).
    + vm_compute. reflexivity.
    + vm_compute. reflexivity.
  - refine (proj1 (proj2 (deviation_classification
                            settled_tracker 0.5 (Some (face 478 0.3 (- 0.002)))
                            (Some 640%Z) (Some 480%Z) (ratio_of (- 0.002)) Hlen Hall _)) _).
    + vm_compute. reflexivity.
    + vm_compute. reflexivity.
  - refine (proj2 (proj2 (deviation_classification
                            settled_tracker 0.5 (Some (face 478 0.3 0.001))
                            (Some 640%Z) (Some 480%Z) (ratio_of 0.001) Hlen Hall _)) _).
    + vm_compute. reflexivity.
    + vm_compute. reflexivity.
Defined.

(** ** Key actuation in the frame loop *)

Lemma key_down_app (log events : list KeyEvent) (k : Key) :
  key_down (log ++ events) k = fold_left (key_step k) events (key_down log k).
Proof. unfold key_down. apply fold_left_app. Qed.

(** [release_all] releases what the fields say is held, and nothing is held
    afterwards. *)
Lemma release_all_releases (self : KeyboardController) (k : Key) :
  fold_left (key_step k) (snd (release_all self)) (held self k) = false
  /\ held (fst (release_all self)) k = false.
Proof.
  destruct self as [hold [[| |]|] dir blink start [|]]; destruct k; split; reflexivity.
Qed.

Lemma release_all_fields (self : KeyboardController) :
  current_key (fst (release_all self)) = None
  /\ jump_key_pressed (fst (release_all self)) = false
  /\ last_direction (fst (release_all self)) = None.
Proof.
  destruct self as [hold [k|] dir blink start [|]]; repeat split.
Qed.

(** [update] keeps the fields and the keys in step, and raises only when a
    pressed jump key has no start time. *)
Lemma update_coherent (self : KeyboardController) (direction : option Direction)
      (is_blink : bool) (t : Q) :
  current_key self <> Some Key_up ->
  (jump_key_pressed self = true -> jump_start_time self <> None) ->
  exists kc events,
    update self direction is_blink t = Some (kc, events)
    /\ (forall k, fold_left (key_step k) events (held self k) = held kc k)
    /\ current_key kc <> Some Key_up
    /\ (jump_key_pressed kc = true -> jump_start_time kc <> None)
    /\ (direction = None ->
        last_direction kc = last_direction self
        /\ current_key kc = direction_key (last_direction self)).
Proof.
  intros Hslot Hstart.
  destruct self as [hold ck ld blink start pressed].
  cbn [current_key jump_key_pressed jump_start_time] in Hslot, Hstart.
  destruct ck as [[| |]|]; try congruence;
    destruct pressed; destruct start as [s|];
    try (exfalso; apply Hstart; reflexivity);
    destruct is_blink; destruct blink;
    destruct direction as [[| |]|]; destruct ld as [[| |]|];
    unfold update;
    cbn [jump_hold_duration current_key last_direction last_blink_state
         jump_start_time jump_key_pressed andb negb];
    try destruct (Qle_bool hold (t - s));
    (eexists; eexists; split; [reflexivity|]);
    (split; [intros [| |]; reflexivity
            | split; [cbn; congruence
                     | split; [cbn; congruence
                              | intros Hd; try discriminate Hd; split; reflexivity]]]).
Qed.

Lemma main_init_coherent (le re li ri : list (nat * nat)) :
  coherent (main_init le re li ri).
Proof.
  split; [intros [| |]; reflexivity | split; [discriminate | discriminate]].
Qed.

(** An iteration that ends in [release_all]: the branch without a face, and
    the branch with a face while keyboard input is not enabled. *)
Lemma loop_body_release (a : App) (fr : FrameInput) :
  multi_face_landmarks fr = None \/ keyboard_enabled a = false ->
  exists tracker' enabled',
    loop_body a fr
    = Some ({| tracker := tracker';
               keyboard_controller := fst (release_all (keyboard_controller a));
               keyboard_enabled := enabled';
               keyboard := keyboard a ++ snd (release_all (keyboard_controller a)) |},
            negb (key fr =? 113)%Z).
Proof.
  intros Hrel. unfold loop_body.
  destruct (multi_face_landmarks fr) as [lms|].
  - destruct Hrel as [Hrel | Hrel]; [discriminate|]. rewrite Hrel.
    destruct (frame_decision (tracker a) fr lms) as [[direction is_blink] tracker'].
    destruct (release_all (keyboard_controller a)) as [kc events].
    eexists. eexists. reflexivity.
  - destruct (release_all (keyboard_controller a)) as [kc events].
    eexists. eexists. reflexivity.
Qed.

(** An iteration that ends in [update]: a face, keyboard input enabled. *)
Lemma loop_body_update (a : App) (fr : FrameInput) (lms : list Landmark) :
  multi_face_landmarks fr = Some lms -> keyboard_enabled a = true ->
  loop_body a fr
  = match update (keyboard_controller a)
                 (frame_direction a fr)
                 (snd (fst (frame_decision (tracker a) fr lms)))
                 (time_update fr) with
    | Some (kc, events) =>
        Some ({| tracker := snd (frame_decision (tracker a) fr lms);
                 keyboard_controller := kc;
                 keyboard_enabled := true;
                 keyboard := keyboard a ++ events |},
              negb (key fr =? 113)%Z)
    | None => None
    end.
Proof.
  intros Hface Hen. unfold loop_body, frame_direction. rewrite Hface, Hen.
  destruct (frame_decision (tracker a) fr lms) as [[direction is_blink] tracker'].
  cbn [fst snd].
  destruct (update (keyboard_controller a) direction is_blink (time_update fr))
    as [[kc events]|]; [|reflexivity].
  cbn [negb andb]. rewrite andb_false_r.
  destruct (key fr =? 113)%Z; reflexivity.
Qed.

Lemma loop_body_coherent (a : App) (fr : FrameInput) (a' : App) (continue : bool) :
  coherent a -> loop_body a fr = Some (a', continue) -> coherent a'.
Proof.
  intros (Hkeys & Hslot & Hstart) Hrun.
  destruct (multi_face_landmarks fr) as [lms|] eqn:Hface;
    [destruct (keyboard_enabled a) eqn:Hen|].
  - rewrite (loop_body_update a fr lms Hface Hen) in Hrun.
    destruct (update_coherent (keyboard_controller a) (frame_direction a fr)
                              (snd (fst (frame_decision (tracker a) fr lms)))
                              (time_update fr) Hslot Hstart)
      as (kc & events & Hupd & Hk & Hs & Ht & _).
    rewrite Hupd in Hrun. injection Hrun as <- _.
    split; [|split; assumption].
    intros k. cbn [keyboard keyboard_controller].
    now rewrite key_down_app, Hkeys, Hk.
  - destruct (loop_body_release a fr (or_intror Hen)) as (tr & en & Hrel).
    rewrite Hrel in Hrun. injection Hrun as <- _.
    destruct (release_all_fields (keyboard_controller a)) as (Hc & Hj & _).
    split; [|split]; cbn [keyboard keyboard_controller].
    + intros k. rewrite key_down_app, Hkeys.
      destruct (release_all_releases (keyboard_controller a) k) as (-> & ->). reflexivity.
    + rewrite Hc. discriminate.
    + rewrite Hj. discriminate.
  - destruct (loop_body_release a fr (or_introl Hface)) as (tr & en & Hrel).
    rewrite Hrel in Hrun. injection Hrun as <- _.
    destruct (release_all_fields (keyboard_controller a)) as (Hc & Hj & _).
    split; [|split]; cbn [keyboard keyboard_controller].
    + intros k. rewrite key_down_app, Hkeys.
      destruct (release_all_releases (keyboard_controller a) k) as (-> & ->). reflexivity.
    + rewrite Hc. discriminate.
    + rewrite Hj. discriminate.
Qed.

Lemma reachable_coherent (a0 a : App) : coherent a0 -> reachable a0 a -> coherent a.
Proof.
  intros H0. induction 1 as [|a fr a' _ IH Hstep]; [exact H0|].
  exact (loop_body_coherent a fr a' true IH Hstep).
Qed.

Lemma run_loop_reachable (a0 : App) (frames : list FrameInput) :
  forall a a', reachable a0 a -> run_loop a frames = Some a' -> reachable a0 a'.
Proof.
  induction frames as [|fr rest IH]; intros a a' Ha Hrun; simpl in Hrun.
  - now injection Hrun as <-.
  - destruct (loop_body a fr) as [[a1 [|]]|] eqn:Hstep; try discriminate.
    apply (IH a1 a'); [|exact Hrun].
    exact (reachable_step a0 a fr a1 Ha Hstep).
Qed.

(** Outside the contract of the landmark extractor.  Keyboard input is
    enabled, the user looks left and the left key goes down; were the next
    frame to carry a face whose iris landmarks are missing, the core would
    report UNKNOWN, [update] would be called and keep the left key down. *)
Lemma unknown_direction_keeps_key : ~ unknown_releases_everything.
Proof.
  intros claim.
  assert (reachable mesh_app gazing_left_app) as Hreach.
  { apply (run_loop_reachable mesh_app gaze_left_frames mesh_app);
      [apply reachable_start | vm_compute; reflexivity]. }
  assert (frame_direction gazing_left_app iris_less_frame = None) as Hdir
      by (vm_compute; reflexivity).
  assert (loop_body gazing_left_app iris_less_frame = Some (after_iris_less_app, true))
    as Hstep by (vm_compute; reflexivity).
  destruct (claim _ _ _ _ _ _ _ _ Hreach Hdir Hstep) as (Hkey & _ & Hdown).
  assert (current_key (keyboard_controller after_iris_less_app) = Some Key_left) as Hleft
      by (vm_compute; reflexivity).
  congruence.
Qed.

(** The same run at the operating system: the left key is down before and
    after the frame on which the core reports UNKNOWN. *)
Lemma unknown_direction_left_key_down :
  key_down (keyboard gazing_left_app) Key_left = true
  /\ key_down (keyboard after_iris_less_app) Key_left = true.
Proof. split; vm_compute; reflexivity. Qed.

(** In every state the loop reaches, an iteration in which no
    face is detected, or in which keyboard input is not enabled, calls
    [release_all] and ends with every input released: [current_key] is
    [None], [jump_key_pressed] is false and no key is down.  An iteration
    with a face and keyboard input enabled on which the core reports UNKNOWN
    calls [update] instead, which keeps [last_direction] and holds its key. *)
Theorem release_everything_without_face
        (left_eye right_eye left_iris right_iris : list (nat * nat))
        (a : App) (fr : FrameInput) :
  reachable (main_init left_eye right_eye left_iris right_iris) a ->
  (multi_face_landmarks fr = None \/ keyboard_enabled a = false ->
   exists a' continue, loop_body a fr = Some (a', continue) /\ all_released a')
  /\ (multi_face_landmarks fr <> None -> keyboard_enabled a = true ->
      frame_direction a fr = None ->
      exists a' continue,
        loop_body a fr = Some (a', continue)
        /\ last_direction (keyboard_controller a') = last_direction (keyboard_controller a)
        /\ current_key (keyboard_controller a')
           = direction_key (last_direction (keyboard_controller a))).
Proof.
  intros Hreach.
  pose proof (reachable_coherent _ a (main_init_coherent _ _ _ _) Hreach)
    as (Hkeys & Hslot & Hstart).
  split.
  - intros Hrel.
    destruct (loop_body_release a fr Hrel) as (tr & en & Hrun).
    eexists. eexists. split; [exact Hrun|].
    destruct (release_all_fields (keyboard_controller a)) as (Hc & Hj & _).
    split; [|split]; cbn [keyboard keyboard_controller]; [exact Hc | exact Hj |].
    intros k. rewrite key_down_app, Hkeys.
    apply release_all_releases.
  - intros Hface Hen Hdir.
    destruct (multi_face_landmarks fr) as [lms|] eqn:Elms; [|congruence].
    rewrite (loop_body_update a fr lms Elms Hen), Hdir.
    destruct (update_coherent (keyboard_controller a) None
                              (snd (fst (frame_decision (tracker a) fr lms)))
                              (time_update fr) Hslot Hstart)
      as (kc & events & Hupd & _ & _ & _ & Hkeep).
    rewrite Hupd. destruct (Hkeep eq_refl) as (Hl & Hc).
    eexists. eexists. split; [reflexivity|].
    cbn [keyboard_controller]. split; assumption.
Qed.

Lemma release_everything_without_face_witness :
  (exists a' continue,
      loop_body gazing_left_app (frame_of None 1000.33 255) = Some (a', continue)
      /\ all_released a')
  /\ (exists a' continue,
         loop_body gazing_left_app iris_less_frame = Some (a', continue)
         /\ last_direction (keyboard_controller a') = Some LEFT
         /\ current_key (keyboard_controller a') = Some Key_left).
Proof.
  assert (reachable mesh_app gazing_left_app) as Hreach.
  { apply (run_loop_reachable mesh_app gaze_left_frames mesh_app);
      [apply reachable_start | vm_compute; reflexivity]. }
  split.
  - apply (release_everything_without_face
             FACEMESH_LEFT_EYE FACEMESH_RIGHT_EYE FACEMESH_LEFT_IRIS FACEMESH_RIGHT_IRIS
             gazing_left_app (frame_of None 1000.33 255) Hreach).
    left. reflexivity.
  - destruct (proj2 (release_everything_without_face
                       FACEMESH_LEFT_EYE FACEMESH_RIGHT_EYE FACEMESH_LEFT_IRIS
                       FACEMESH_RIGHT_IRIS gazing_left_app iris_less_frame Hreach))
      as (a' & c & Hrun & Hl & Hc).
    + discriminate.
    + vm_compute. reflexivity.
    + vm_compute. reflexivity.
    + exists a', c. split; [exact Hrun|].
      split; [rewrite Hl | rewrite Hc]; vm_compute; reflexivity.
Defined.

(** * Further properties of the code *)

(** ** Index tables *)

Lemma insert_index_In (i j : nat) (l : list nat) :
  In j (insert_index i l) <-> j = i \/ In j l.
Proof.
  induction l as [|k l IH]; simpl.
  - intuition.
  - destruct (i <? k)%nat eqn:E1; [simpl; intuition|].
    destruct (i =? k)%nat eqn:E2.
    + apply Nat.eqb_eq in E2. subst. simpl. intuition.
    + simpl. rewrite IH. intuition.
Qed.

Lemma insert_index_sorted (i : nat) (l : list nat) :
  StronglySorted lt l -> StronglySorted lt (insert_index i l).
Proof.
  induction 1 as [|k l Hs IH Hk]; simpl.
  - repeat constructor.
  - destruct (Nat.ltb_spec i k) as [Hlt | Hge].
    + constructor; [now constructor|].
      constructor; [assumption|].
      eapply Forall_impl; [|exact Hk]. intros; lia.
    + destruct (Nat.eqb_spec i k) as [-> | Hne]; [now constructor|].
      constructor; [assumption|].
      apply Forall_forall. intros j Hj. apply insert_index_In in Hj.
      destruct Hj as [-> | Hj]; [lia|].
      rewrite Forall_forall in Hk. now apply Hk.
Qed.

Lemma extract_indices_fold (connections : list (nat * nat)) :
  forall acc,
    StronglySorted lt acc ->
    StronglySorted lt
      (fold_left (fun indices connection =>
                    insert_index (snd connection) (insert_index (fst connection) indices))
                 connections acc)
    /\ forall i,
        In i (fold_left (fun indices connection =>
                           insert_index (snd connection)
                                        (insert_index (fst connection) indices))
                        connections acc)
        <-> In i acc \/ exists c, In c connections /\ (i = fst c \/ i = snd c).
Proof.
  induction connections as [|c rest IH]; intros acc Hacc; cbn [fold_left].
  - split; [assumption|]. intros i. split; [tauto|].
    intros [H | (c & [] & _)]. exact H.
  - destruct (IH (insert_index (snd c) (insert_index (fst c) acc))) as (Hs & Hin).
    { now apply insert_index_sorted, insert_index_sorted. }
    split; [exact Hs|].
    intros i. rewrite Hin, !insert_index_In. split.
    + intros [[-> | [-> | H]] | (c' & Hc' & Hi)].
      * right. exists c. split; [now left | now right].
      * right. exists c. split; [now left | now left].
      * now left.
      * right. exists c'. split; [now right | exact Hi].
    + intros [H | (c' & [<- | Hc'] & Hi)].
      * left. right. now right.
      * left. destruct Hi as [-> | ->]; [right; now left | now left].
      * right. exists c'. split; assumption.
Qed.

(** X1: [_extract_indices_from_connections] returns the end points of the
    connections, each once, in increasing order. *)
Theorem extract_indices_sorted_endpoints (connections : list (nat * nat)) :
  StronglySorted lt (_extract_indices_from_connections connections)
  /\ forall i,
      In i (_extract_indices_from_connections connections)
      <-> exists c, In c connections /\ (i = fst c \/ i = snd c).
Proof.
  destruct (extract_indices_fold connections [] (SSorted_nil lt)) as (Hs & Hin).
  split; [exact Hs|].
  intros i. unfold _extract_indices_from_connections. rewrite Hin.
  split; [intros [[] | H]; exact H | intros H; now right].
Qed.

(** ** Points of a subset *)

Lemma _get_landmark_point_in_range (landmarks : list Landmark) (idx : nat) (w h : option Z) :
  (idx < length landmarks)%nat ->
  _get_landmark_point landmarks idx w h
  = Some (landmark_point (nth idx landmarks {| lm_x := 0; lm_y := 0 |}) w h).
Proof.
  intros Hlt. unfold _get_landmark_point, landmark_point.
  apply Nat.leb_gt in Hlt. rewrite Hlt.
  destruct (dim_true w && dim_true h); reflexivity.
Qed.

Lemma collect_points_in_range (landmarks : list Landmark) (indices : list nat) (w h : option Z) :
  Forall (fun idx => (idx < length landmarks)%nat) indices ->
  collect_points landmarks indices w h
  = map (fun idx => landmark_point (nth idx landmarks {| lm_x := 0; lm_y := 0 |}) w h) indices.
Proof.
  induction 1 as [|idx rest Hidx _ IH]; [reflexivity|].
  cbn [collect_points map].
  rewrite (_get_landmark_point_in_range landmarks idx w h Hidx), IH. reflexivity.
Qed.

(** X2: when every index of a non-empty subset is in range,
    [_get_points_from_indices] returns one point per index, in the order of
    the subset: the landmark's coordinates, multiplied by the frame size when
    both dimensions are given and non-zero. *)
Theorem accessor_in_range_points
        (landmarks : list Landmark) (indices : list nat) (w h : option Z) :
  indices <> [] ->
  Forall (fun idx => (idx < length landmarks)%nat) indices ->
  _get_points_from_indices landmarks indices w h
  = Some (map (fun idx => landmark_point (nth idx landmarks {| lm_x := 0; lm_y := 0 |}) w h)
              indices).
Proof.
  intros Hne Hall. unfold _get_points_from_indices.
  rewrite (collect_points_in_range landmarks indices w h Hall).
  destruct indices as [|idx rest]; [contradiction | reflexivity].
Qed.

Lemma accessor_in_range_points_witness :
  _get_points_from_indices
    [{| lm_x := 0.25; lm_y := 0.75 |}; {| lm_x := 0.5; lm_y := 0.5 |}]
    [1; 0]%nat (Some 640%Z) (Some 480%Z)
  = Some [(0.5 * 640, 0.5 * 480); (0.25 * 640, 0.75 * 480)].
Proof.
  apply (accessor_in_range_points
           [{| lm_x := 0.25; lm_y := 0.75 |}; {| lm_x := 0.5; lm_y := 0.5 |}]
           [1; 0]%nat (Some 640%Z) (Some 480%Z)).
  - discriminate.
  - repeat constructor.
Defined.

(** ** Extremes of an array *)

Lemma fold_min_spec (ys : list Q) :
  forall best,
    fold_left py_min ys best <= best
    /\ Forall (fun y => fold_left py_min ys best <= y) ys
    /\ (fold_left py_min ys best = best \/ In (fold_left py_min ys best) ys).
Proof.
  induction ys as [|y ys IH]; intros best; cbn [fold_left].
  - split; [lra | split; [constructor | now left]].
  - destruct (IH (py_min best y)) as (Hle & Hall & Hin).
    assert (py_min best y <= best /\ py_min best y <= y
            /\ (py_min best y = best \/ py_min best y = y)) as (Hb & Hy & Hsel).
    { unfold py_min. destruct (Qlt_bool y best) eqn:E; qprops;
        repeat split; try lra; auto. }
    split; [lra|]. split.
    + constructor; [lra | exact Hall].
    + destruct Hin as [Hin | Hin].
      * rewrite Hin. destruct Hsel as [-> | ->]; [now left | right; now left].
      * right. now right.
Qed.

Lemma fold_max_spec (ys : list Q) :
  forall best,
    best <= fold_left py_max ys best
    /\ Forall (fun y => y <= fold_left py_max ys best) ys
    /\ (fold_left py_max ys best = best \/ In (fold_left py_max ys best) ys).
Proof.
  induction ys as [|y ys IH]; intros best; cbn [fold_left].
  - split; [lra | split; [constructor | now left]].
  - destruct (IH (py_max best y)) as (Hle & Hall & Hin).
    assert (best <= py_max best y /\ y <= py_max best y
            /\ (py_max best y = best \/ py_max best y = y)) as (Hb & Hy & Hsel).
    { unfold py_max. destruct (Qlt_bool best y) eqn:E; qprops;
        repeat split; try lra; auto. }
    split; [lra|]. split.
    + constructor; [lra | exact Hall].
    + destruct Hin as [Hin | Hin].
      * rewrite Hin. destruct Hsel as [-> | ->]; [now left | right; now left].
      * right. now right.
Qed.

Lemma arr_min_spec (a : list Q) :
  a <> [] -> Forall (fun y => arr_min a <= y) a /\ In (arr_min a) a.
Proof.
  destruct a as [|x xs]; [contradiction|]. intros _. unfold arr_min.
  destruct (fold_min_spec xs x) as (Hle & Hall & Hin).
  split; [now constructor|].
  destruct Hin as [-> | Hin]; [now left | now right].
Qed.

Lemma arr_max_spec (a : list Q) :
  a <> [] -> Forall (fun y => y <= arr_max a) a /\ In (arr_max a) a.
Proof.
  destruct a as [|x xs]; [contradiction|]. intros _. unfold arr_max.
  destruct (fold_max_spec xs x) as (Hle & Hall & Hin).
  split; [now constructor|].
  destruct Hin as [-> | Hin]; [now left | now right].
Qed.

(** [argmin_from] and the fold of [py_min] walk the array together. *)
Lemma argmin_from_spec (d : Q) (ys : list Q) :
  forall (pre : list Q) (best : Q) (besti : nat),
    (besti < length pre)%nat -> nth besti pre d = best ->
    (argmin_from best besti (length pre) ys < length (pre ++ ys))%nat
    /\ nth (argmin_from best besti (length pre) ys) (pre ++ ys) d
       = fold_left py_min ys best.
Proof.
  induction ys as [|y ys IH]; intros pre best besti Hlt Hnth; cbn [argmin_from fold_left].
  - rewrite app_nil_r. split; [assumption | exact Hnth].
  - replace (pre ++ y :: ys) with ((pre ++ [y]) ++ ys) by (now rewrite <- app_assoc).
    replace (S (length pre)) with (length (pre ++ [y])) by (rewrite length_app; simpl; lia).
    destruct (Qlt_bool y best) eqn:E;
      [replace (py_min best y) with y by (unfold py_min; now rewrite E)
      |replace (py_min best y) with best by (unfold py_min; now rewrite E)].
    + apply (IH (pre ++ [y]) y (length pre)).
      * rewrite length_app. simpl. lia.
      * rewrite app_nth2 by lia. now rewrite Nat.sub_diag.
    + apply (IH (pre ++ [y]) best besti).
      * rewrite length_app. simpl. lia.
      * rewrite app_nth1 by assumption. exact Hnth.
Qed.

Lemma argmax_from_spec (d : Q) (ys : list Q) :
  forall (pre : list Q) (best : Q) (besti : nat),
    (besti < length pre)%nat -> nth besti pre d = best ->
    (argmax_from best besti (length pre) ys < length (pre ++ ys))%nat
    /\ nth (argmax_from best besti (length pre) ys) (pre ++ ys) d
       = fold_left py_max ys best.
Proof.
  induction ys as [|y ys IH]; intros pre best besti Hlt Hnth; cbn [argmax_from fold_left].
  - rewrite app_nil_r. split; [assumption | exact Hnth].
  - replace (pre ++ y :: ys) with ((pre ++ [y]) ++ ys) by (now rewrite <- app_assoc).
    replace (S (length pre)) with (length (pre ++ [y])) by (rewrite length_app; simpl; lia).
    destruct (Qlt_bool best y) eqn:E;
      [replace (py_max best y) with y by (unfold py_max; now rewrite E)
      |replace (py_max best y) with best by (unfold py_max; now rewrite E)].
    + apply (IH (pre ++ [y]) y (length pre)).
      * rewrite length_app. simpl. lia.
      * rewrite app_nth2 by lia. now rewrite Nat.sub_diag.
    + apply (IH (pre ++ [y]) best besti).
      * rewrite length_app. simpl. lia.
      * rewrite app_nth1 by assumption. exact Hnth.
Qed.

Lemma arr_argmin_spec (a : list Q) (d : Q) :
  a <> [] -> (arr_argmin a < length a)%nat /\ nth (arr_argmin a) a d = arr_min a.
Proof.
  destruct a as [|x xs]; [contradiction|]. intros _. unfold arr_argmin, arr_min.
  apply (argmin_from_spec d xs [x] x 0%nat); [simpl; lia | reflexivity].
Qed.

Lemma arr_argmax_spec (a : list Q) (d : Q) :
  a <> [] -> (arr_argmax a < length a)%nat /\ nth (arr_argmax a) a d = arr_max a.
Proof.
  destruct a as [|x xs]; [contradiction|]. intros _. unfold arr_argmax, arr_max.
  apply (argmax_from_spec d xs [x] x 0%nat); [simpl; lia | reflexivity].
Qed.

Lemma col0_nth (points : list Point) (i : nat) :
  nth i (col0 points) 0 = fst (nth i points (0, 0)).
Proof. unfold col0. exact (map_nth fst points (0, 0) i). Qed.

Lemma col1_nth (points : list Point) (i : nat) :
  nth i (col1 points) 0 = snd (nth i points (0, 0)).
Proof. unfold col1. exact (map_nth snd points (0, 0) i). Qed.

(** X3: the bounds built by [get_bounds] from a non-empty array.  Each of
    the four bounds is a point of the array; no point lies left of [left],
    right of [right], above [top] or below [bottom]; hence
    [left.x <= right.x] and [top.y <= bottom.y]. *)
Theorem get_bounds_extremes (points : list Point) :
  points <> [] ->
  let bounds := get_bounds points in
  (In (b_left bounds) points /\ In (b_right bounds) points
   /\ In (b_top bounds) points /\ In (b_bottom bounds) points)
  /\ Forall (fun p => fst (b_left bounds) <= fst p /\ fst p <= fst (b_right bounds)
                      /\ snd (b_top bounds) <= snd p /\ snd p <= snd (b_bottom bounds))
            points
  /\ fst (b_left bounds) <= fst (b_right bounds)
  /\ snd (b_top bounds) <= snd (b_bottom bounds).
Proof.
  intros Hne bounds.
  assert (col0 points <> []) as Hc0 by (destruct points; [contradiction | discriminate]).
  assert (col1 points <> []) as Hc1 by (destruct points; [contradiction | discriminate]).
  destruct (arr_min_spec _ Hc0) as (Hminx & _).
  destruct (arr_max_spec _ Hc0) as (Hmaxx & _).
  destruct (arr_min_spec _ Hc1) as (Hminy & _).
  destruct (arr_max_spec _ Hc1) as (Hmaxy & _).
  destruct (arr_argmin_spec _ 0 Hc0) as (Hi1 & He1).
  destruct (arr_argmax_spec _ 0 Hc0) as (Hi2 & He2).
  destruct (arr_argmin_spec _ 0 Hc1) as (Hi3 & He3).
  destruct (arr_argmax_spec _ 0 Hc1) as (Hi4 & He4).
  unfold col0 in Hi1, Hi2. unfold col1 in Hi3, Hi4. rewrite length_map in Hi1, Hi2, Hi3, Hi4.
  rewrite col0_nth in He1, He2. rewrite col1_nth in He3, He4.
  assert (Forall (fun p => fst (b_left bounds) <= fst p /\ fst p <= fst (b_right bounds)
                           /\ snd (b_top bounds) <= snd p /\ snd p <= snd (b_bottom bounds))
                 points) as Hall.
  { subst bounds. cbn [get_bounds b_left b_right b_top b_bottom fst snd].
    rewrite Forall_forall in Hminx, Hmaxx, Hminy, Hmaxy.
    apply Forall_forall. intros p Hp.
    pose proof (in_map fst _ _ Hp) as Hx. pose proof (in_map snd _ _ Hp) as Hy.
    repeat split; [apply Hminx | apply Hmaxx | apply Hminy | apply Hmaxy]; assumption. }
  split; [|split; [exact Hall|]].
  - subst bounds. unfold get_bounds, at0, at1. cbn [b_left b_right b_top b_bottom].
    rewrite <- He1, <- He2, <- He3, <- He4, <- !surjective_pairing.
    repeat split; apply nth_In; assumption.
  - destruct points as [|p ps]; [contradiction|].
    inversion Hall as [|? ? (H1 & H2 & H3 & H4) _]; subst. split; lra.
Qed.

Lemma get_bounds_extremes_witness :
  In (b_left (get_bounds [(3, 5); (1, 7); (4, 2); (1, 9)])) [(3, 5); (1, 7); (4, 2); (1, 9)]
  /\ b_left (get_bounds [(3, 5); (1, 7); (4, 2); (1, 9)]) = (1, 7)
  /\ b_top (get_bounds [(3, 5); (1, 7); (4, 2); (1, 9)]) = (4, 2).
Proof.
  split; [|split; reflexivity].
  apply (get_bounds_extremes [(3, 5); (1, 7); (4, 2); (1, 9)]). discriminate.
Defined.

(** ** Means *)

Lemma py_len_pos {A} (l : list A) : l <> [] -> 0 < py_len l.
Proof.
  intros Hne. destruct l as [|a l]; [contradiction|].
  unfold py_len. change 0 with (inject_Z 0). rewrite <- Zlt_Qlt. simpl. lia.
Qed.

Lemma fold_sum_bounds (lo hi : Q) (l : list Q) :
  Forall (fun x => lo <= x /\ x <= hi) l ->
  forall acc,
    acc + py_len l * lo <= fold_left Qplus l acc
    /\ fold_left Qplus l acc <= acc + py_len l * hi.
Proof.
  induction 1 as [|x l (Hlo & Hhi) _ IH]; intros acc.
  - unfold py_len. cbn [fold_left length].
    change (inject_Z (Z.of_nat 0)) with 0. split; lra.
  - cbn [fold_left]. destruct (IH (acc + x)) as (H1 & H2).
    rewrite py_len_cons. split; lra.
Qed.

Lemma mean_bounds (lo hi : Q) (l : list Q) :
  l <> [] -> Forall (fun x => lo <= x /\ x <= hi) l ->
  lo <= py_sum l / py_len l /\ py_sum l / py_len l <= hi.
Proof.
  intros Hne Hall. pose proof (py_len_pos l Hne) as Hpos.
  destruct (fold_sum_bounds lo hi l Hall 0) as (H1 & H2). fold (py_sum l) in H1, H2.
  split.
  - apply Qle_shift_div_l; [assumption | lra].
  - apply Qle_shift_div_r; [assumption | lra].
Qed.

(** X4: the iris centroid computed by [points.mean(axis=0)] lies inside the
    bounding box of the points it averages. *)
Theorem centroid_inside_bounding_box (points : list Point) :
  points <> [] ->
  arr_min (col0 points) <= fst (mean_axis0 points)
  /\ fst (mean_axis0 points) <= arr_max (col0 points)
  /\ arr_min (col1 points) <= snd (mean_axis0 points)
  /\ snd (mean_axis0 points) <= arr_max (col1 points).
Proof.
  intros Hne.
  assert (col0 points <> []) as Hc0 by (destruct points; [contradiction | discriminate]).
  assert (col1 points <> []) as Hc1 by (destruct points; [contradiction | discriminate]).
  assert (py_len points = py_len (col0 points)) as Hl0
      by (unfold py_len, col0; now rewrite length_map).
  assert (py_len points = py_len (col1 points)) as Hl1
      by (unfold py_len, col1; now rewrite length_map).
  destruct (arr_min_spec _ Hc0) as (Hminx & _). destruct (arr_max_spec _ Hc0) as (Hmaxx & _).
  destruct (arr_min_spec _ Hc1) as (Hminy & _). destruct (arr_max_spec _ Hc1) as (Hmaxy & _).
  unfold mean_axis0. cbn [fst snd].
  destruct (mean_bounds (arr_min (col0 points)) (arr_max (col0 points)) (col0 points) Hc0)
    as (Hx1 & Hx2).
  { rewrite Forall_forall in *. intros x Hx. split; [now apply Hminx | now apply Hmaxx]. }
  destruct (mean_bounds (arr_min (col1 points)) (arr_max (col1 points)) (col1 points) Hc1)
    as (Hy1 & Hy2).
  { rewrite Forall_forall in *. intros y Hy. split; [now apply Hminy | now apply Hmaxy]. }
  rewrite Hl0 at 1 2. rewrite Hl1.
  repeat split; assumption.
Qed.

Lemma centroid_inside_bounding_box_witness :
  arr_min (col0 [(3, 5); (1, 7); (4, 2)]) <= fst (mean_axis0 [(3, 5); (1, 7); (4, 2)])
  /\ fst (mean_axis0 [(3, 5); (1, 7); (4, 2)]) <= arr_max (col0 [(3, 5); (1, 7); (4, 2)]).
Proof.
  destruct (centroid_inside_bounding_box [(3, 5); (1, 7); (4, 2)]) as (H1 & H2 & _).
  - discriminate.
  - split; assumption.
Defined.

(** ** Horizontal ratio *)

Lemma horizontal_ratio_unit (iris : option Point) (bounds : option EyeBounds) (r : Q) :
  calculate_horizontal_ratio iris bounds = Some r -> 0 <= r /\ r <= 1.
Proof.
  unfold calculate_horizontal_ratio.
  destruct iris as [iris|]; [|discriminate]. destruct bounds as [bounds|]; [|discriminate].
  destruct (Qlt_bool _ 1e-6).
  - intros [= <-]. split; lra.
  - intros [= <-]. unfold py_max, py_min.
    set (ratio := (fst iris - fst (b_left bounds)) / _).
    destruct (Qlt_bool ratio 1.0) eqn:H1;
      [destruct (Qlt_bool 0.0 ratio) eqn:H0 | destruct (Qlt_bool 0.0 1.0) eqn:H0];
      qprops; split; lra.
Qed.

(** X5: on an eye at least 1e-6 wide, [calculate_horizontal_ratio] is the
    position of the iris across the eye, (iris.x - left.x) / width, when the
    iris lies between the bounds; it is 0 for an iris at or left of [left]
    and 1 for an iris at or right of [right]. *)
Theorem horizontal_ratio_position (iris : Point) (bounds : EyeBounds) :
  1e-6 <= fst (b_right bounds) - fst (b_left bounds) ->
  exists r,
    calculate_horizontal_ratio (Some iris) (Some bounds) = Some r
    /\ (fst (b_left bounds) <= fst iris <= fst (b_right bounds) ->
        r == (fst iris - fst (b_left bounds)) / (fst (b_right bounds) - fst (b_left bounds)))
    /\ (fst iris <= fst (b_left bounds) -> r == 0)
    /\ (fst (b_right bounds) <= fst iris -> r == 1).
Proof.
  intros Hwide. unfold calculate_horizontal_ratio.
  set (eye_width := fst (b_right bounds) - fst (b_left bounds)) in *.
  change 1e-6 with (1 # 1000000) in *.
  assert (0 < eye_width) as Hpos by lra.
  assert (Qlt_bool (Qabs eye_width) (1 # 1000000) = false) as ->.
  { apply Qlt_bool_false_iff. rewrite Qabs_pos; lra. }
  set (ratio := (fst iris - fst (b_left bounds)) / eye_width).
  assert (ratio * eye_width == fst iris - fst (b_left bounds)) as Hratio.
  { unfold ratio. rewrite Qmult_comm. apply Qmult_div_r. lra. }
  assert (eye_width == fst (b_right bounds) - fst (b_left bounds)) as Hwidth by reflexivity.
  exists (py_max 0.0 (py_min 1.0 ratio)). split; [reflexivity|].
  unfold py_max, py_min.
  destruct (Qlt_bool ratio 1.0) eqn:H1;
    [destruct (Qlt_bool 0.0 ratio) eqn:H0 | destruct (Qlt_bool 0.0 1.0) eqn:H0];
    qprops; repeat split; intros; try lra; try nra.
Qed.

Lemma horizontal_ratio_position_witness :
  exists r,
    calculate_horizontal_ratio
      (Some (368, 190))
      (Some {| b_left := (352, 192); b_right := (416, 192);
               b_top := (384, 190); b_bottom := (384, 200) |}) = Some r
    /\ r == (368 - 352) / (416 - 352).
Proof.
  destruct (horizontal_ratio_position
              (368, 190)
              {| b_left := (352, 192); b_right := (416, 192);
                 b_top := (384, 190); b_bottom := (384, 200) |})
    as (r & Hr & Hin & _).
  - vm_compute. discriminate.
  - exists r. split; [exact Hr|]. apply Hin. cbn [fst b_left b_right]. split; lra.
Defined.

(** ** Gaze estimator: runs *)

Lemma frame_avg_ratio_tables (s1 s2 : GazeTracker) (landmarks : Landmarks) (w h : option Z) :
  same_tables s1 s2 -> frame_avg_ratio s1 landmarks w h = frame_avg_ratio s2 landmarks w h.
Proof.
  intros (A & B & C & D).
  unfold frame_avg_ratio, get_iris_positions, get_eye_boundaries.
  rewrite A, B, C, D. reflexivity.
Qed.

Lemma classify_tables (self : GazeTracker) (x : Q) : same_tables self (snd (classify self x)).
Proof.
  unfold classify. destruct (baseline_avg (_update_baseline self x)).
  - destruct (Qlt_bool _ gaze_threshold); [|destruct (Qlt_bool _ 0)]; repeat split.
  - repeat split.
Qed.

Lemma classify_state (self : GazeTracker) (x : Q) :
  snd (classify self x) = _update_baseline self x.
Proof.
  unfold classify. destruct (baseline_avg (_update_baseline self x)).
  - destruct (Qlt_bool _ gaze_threshold); [|destruct (Qlt_bool _ 0)]; reflexivity.
  - reflexivity.
Qed.

Lemma get_gaze_direction_tables (self : GazeTracker) (landmarks : Landmarks) (w h : option Z) :
  same_tables self (snd (get_gaze_direction self landmarks w h)).
Proof.
  rewrite get_gaze_direction_unfold. destruct (frame_avg_ratio self landmarks w h).
  - apply classify_tables.
  - apply same_tables_refl.
Qed.

Lemma gaze_directions_cons (self : GazeTracker) (landmarks : Landmarks)
      (rest : list Landmarks) (w h : option Z) :
  gaze_directions self (landmarks :: rest) w h
  = (fst (get_gaze_direction self landmarks w h)
       :: fst (gaze_directions (snd (get_gaze_direction self landmarks w h)) rest w h),
     snd (gaze_directions (snd (get_gaze_direction self landmarks w h)) rest w h)).
Proof.
  cbn [gaze_directions].
  destruct (get_gaze_direction self landmarks w h) as [d self']. cbn [fst snd].
  destruct (gaze_directions self' rest w h) as [ds self'']. reflexivity.
Qed.

Lemma frame_avg_ratio_unit (self : GazeTracker) (landmarks : Landmarks) (w h : option Z) (x : Q) :
  frame_avg_ratio self landmarks w h = Some x -> 0 <= x /\ x <= 1.
Proof.
  unfold frame_avg_ratio.
  destruct (get_iris_positions self landmarks w h) as [[li|] [ri|]];
    destruct (get_eye_boundaries self landmarks w h) as [[lb|] [rb|]]; try discriminate.
  destruct (calculate_horizontal_ratio (Some li) (Some lb)) as [l|] eqn:El; [|discriminate].
  destruct (calculate_horizontal_ratio (Some ri) (Some rb)) as [r|] eqn:Er; [|discriminate].
  intros [= <-].
  destruct (horizontal_ratio_unit _ _ _ El). destruct (horizontal_ratio_unit _ _ _ Er).
  unfold Qdiv. change (/ 2.0) with (10 # 20). split; lra.
Qed.

(** X6: a landmark set that has every landmark named by the tracker's
    tables never yields UNKNOWN: [get_gaze_direction] returns LEFT, RIGHT or
    CENTER, and pushes one sample, between 0 and 1, into the baseline
    window. *)
Theorem well_formed_landmarks_give_direction
        (self : GazeTracker) (lms : list Landmark) (w h : option Z) :
  well_formed self lms ->
  exists d x,
    fst (get_gaze_direction self (Some lms) w h) = Some d
    /\ frame_avg_ratio self (Some lms) w h = Some x
    /\ 0 <= x /\ x <= 1
    /\ snd (get_gaze_direction self (Some lms) w h) = _update_baseline self x.
Proof.
  intros Hwf. unfold well_formed in Hwf.
  inversion Hwf as [|? ? (Hle & Hlea) Hwf1]; subst.
  inversion Hwf1 as [|? ? (Hre & Hrea) Hwf2]; subst.
  inversion Hwf2 as [|? ? (Hli & Hlia) Hwf3]; subst.
  inversion Hwf3 as [|? ? (Hri & Hria) _]; subst.
  assert (exists x, frame_avg_ratio self (Some lms) w h = Some x) as (x & Hx).
  { unfold frame_avg_ratio, get_iris_positions, get_eye_boundaries, _get_points_from_indices.
    rewrite !collect_points_in_range by assumption.
    destruct lms as [|lm lms'].
    { destruct (left_eye_indices self) as [|i ?]; [contradiction|].
      inversion Hlea; subst. simpl in *. lia. }
    destruct (left_iris_indices self) as [|i1 l1]; [contradiction|].
    destruct (right_iris_indices self) as [|i2 l2]; [contradiction|].
    destruct (left_eye_indices self) as [|i3 l3]; [contradiction|].
    destruct (right_eye_indices self) as [|i4 l4]; [contradiction|].
    cbn [map]. cbv beta iota.
    unfold calculate_horizontal_ratio.
    destruct (Qlt_bool _ 1e-6); destruct (Qlt_bool _ 1e-6); eexists; reflexivity. }
  destruct (frame_avg_ratio_unit _ _ _ _ _ Hx) as (H0 & H1).
  rewrite get_gaze_direction_unfold, Hx.
  assert (exists d, fst (classify self x) = Some d) as (d & Hd).
  { unfold classify. destruct (baseline_avg (_update_baseline self x)).
    - destruct (Qlt_bool _ gaze_threshold); [|destruct (Qlt_bool _ 0)];
        eexists; reflexivity.
    - eexists; reflexivity. }
  exists d, x. repeat split; try assumption. apply classify_state.
Qed.

Lemma mesh_face_well_formed : well_formed mesh_tracker (face 478 0.3 0.002).
Proof.
  unfold well_formed.
  repeat (apply Forall_cons;
          [split; [discriminate | apply Forall_forall; intros idx Hin;
                                  apply Nat.ltb_lt;
                                  revert idx Hin; apply Forall_forall;
                                  vm_compute; repeat constructor]|]).
  apply Forall_nil.
Qed.

Lemma well_formed_landmarks_give_direction_witness :
  exists d x,
    fst (get_gaze_direction mesh_tracker (Some (face 478 0.3 0.002)) (Some 640%Z) (Some 480%Z))
    = Some d
    /\ frame_avg_ratio mesh_tracker (Some (face 478 0.3 0.002)) (Some 640%Z) (Some 480%Z)
       = Some x
    /\ 0 <= x /\ x <= 1.
Proof.
  destruct (well_formed_landmarks_give_direction
              mesh_tracker (face 478 0.3 0.002) (Some 640%Z) (Some 480%Z)
              mesh_face_well_formed) as (d & x & Hd & Hx & H0 & H1 & _).
  exists d, x. repeat split; assumption.
Defined.

Lemma _update_baseline_length (self : GazeTracker) (x : Q) :
  (length (baseline_ratios self) <= 30)%nat ->
  length (baseline_ratios (_update_baseline self x))
  = Nat.min 30 (S (length (baseline_ratios self))).
Proof.
  intros Hlen. rewrite _update_baseline_ratios. unfold baseline_max_samples.
  rewrite length_app. cbn [length].
  destruct (Nat.ltb_spec 30 (length (baseline_ratios self) + 1)) as [H | H].
  - destruct (baseline_ratios self) as [|r rs]; cbn [app tl length] in *; [lia|].
    rewrite length_app. cbn [length]. lia.
  - rewrite length_app. cbn [length]. lia.
Qed.

Lemma gaze_directions_length (frames : list Landmarks) (w h : option Z) :
  forall self, length (fst (gaze_directions self frames w h)) = length frames.
Proof.
  induction frames as [|lm rest IH]; intros self; [reflexivity|].
  rewrite gaze_directions_cons. cbn [fst length]. now rewrite IH.
Qed.

(** X7: cold start.  From a fresh tracker, in a run of fewer than 10 calls
    of [get_gaze_direction] each result is CENTER when the geometry of that
    frame is available, and UNKNOWN exactly when it is missing; LEFT and
    RIGHT never occur. *)
Theorem cold_start_is_center
        (left_eye right_eye left_iris right_iris : list (nat * nat))
        (frames : list Landmarks) (w h : option Z) :
  let fresh := GazeTracker_init left_eye right_eye left_iris right_iris in
  (length frames < 10)%nat ->
  fst (gaze_directions fresh frames w h)
  = map (fun landmarks =>
           match frame_avg_ratio fresh landmarks w h with
           | Some _ => Some CENTER
           | None => None
           end) frames.
Proof.
  intros fresh Hlen.
  assert (forall frames self,
             same_tables fresh self ->
             baseline_avg self = None ->
             (length (baseline_ratios self) + length frames < 10)%nat ->
             fst (gaze_directions self frames w h)
             = map (fun landmarks =>
                      match frame_avg_ratio fresh landmarks w h with
                      | Some _ => Some CENTER
                      | None => None
                      end) frames) as Hgen.
  { clear frames Hlen. induction frames as [|lm rest IH]; intros self Htab Havg Hlen.
    - reflexivity.
    - rewrite gaze_directions_cons. cbn [fst map]. cbn [length] in Hlen.
      rewrite get_gaze_direction_unfold.
      rewrite <- (frame_avg_ratio_tables fresh self lm w h Htab).
      destruct (frame_avg_ratio fresh lm w h) as [x|].
      + assert (baseline_avg (_update_baseline self x) = None) as Hnone.
        { rewrite _update_baseline_avg, _update_baseline_length by lia.
          unfold min_samples.
          destruct (Nat.leb_spec 10 (Nat.min 30 (S (length (baseline_ratios self)))));
            [lia | exact Havg]. }
        rewrite classify_state. f_equal.
        * unfold classify. now rewrite Hnone.
        * apply IH; [|exact Hnone|].
          -- apply (same_tables_trans fresh self); [exact Htab | repeat split].
          -- rewrite _update_baseline_length by lia. lia.
      + cbn [fst snd]. f_equal. apply IH; [exact Htab | exact Havg | lia]. }
  apply Hgen; [apply same_tables_refl | reflexivity | simpl; lia].
Qed.

Lemma cold_start_is_center_witness :
  fst (gaze_directions mesh_tracker
                       [Some (face 478 0.3 0); Some (face 478 0.3 0.03);
                        Some (face 468 0.3 0); Some (face 478 0.3 (- 0.04))]
                       (Some 640%Z) (Some 480%Z))
  = [Some CENTER; Some CENTER; None; Some CENTER].
Proof.
  etransitivity.
  - apply (cold_start_is_center
             FACEMESH_LEFT_EYE FACEMESH_RIGHT_EYE FACEMESH_LEFT_IRIS FACEMESH_RIGHT_IRIS
             [Some (face 478 0.3 0); Some (face 478 0.3 0.03);
              Some (face 468 0.3 0); Some (face 478 0.3 (- 0.04))]
             (Some 640%Z) (Some 480%Z)).
    simpl. lia.
  - vm_compute. reflexivity.
Defined.

Lemma settled_at_step (r x : Q) (self : GazeTracker) :
  settled_at r self -> x == r ->
  settled_at r (_update_baseline self x) /\ fst (classify self x) = Some CENTER.
Proof.
  intros (Hwin & Havg) Hx.
  assert (Forall (fun y => y == r) (baseline_ratios (_update_baseline self x))) as Hwin'.
  { rewrite _update_baseline_ratios.
    assert (Forall (fun y => y == r) (baseline_ratios self ++ [x])) as Happ
        by (apply Forall_app; split; [assumption | now constructor]).
    destruct (_ <? _)%nat; [|exact Happ].
    destruct (baseline_ratios self ++ [x]); [constructor | now inversion Happ]. }
  assert (forall v, baseline_avg (_update_baseline self x) = Some v -> v == r) as Havg'.
  { intros v. rewrite _update_baseline_avg.
    destruct (Nat.leb_spec min_samples (length (baseline_ratios (_update_baseline self x))))
      as [Hlen | Hlen]; [|apply Havg].
    intros [= <-]. rewrite (py_sum_const r _ Hwin'), Qmult_comm.
    apply Qdiv_mult_l.
    assert (0 < py_len (baseline_ratios (_update_baseline self x))) as Hpos.
    { apply py_len_pos. intros E. rewrite E in Hlen. unfold min_samples in Hlen.
      simpl in Hlen. lia. }
    apply Qnot_eq_sym, Qlt_not_eq, Hpos. }
  split; [split; assumption|].
  unfold classify. destruct (baseline_avg (_update_baseline self x)) as [v|] eqn:E;
    [|reflexivity].
  specialize (Havg' v eq_refl).
  assert (Qlt_bool (Qabs (x - v)) gaze_threshold = true) as ->; [|reflexivity].
  apply Qlt_bool_iff, Qabs_lt_iff. unfold gaze_threshold. split; lra.
Qed.

Lemma gaze_run_settled (s0 : GazeTracker) (r : Q) (w h : option Z) (frames : list Landmarks) :
  Forall (fun lm => exists x, frame_avg_ratio s0 lm w h = Some x /\ x == r) frames ->
  forall self,
    same_tables s0 self -> settled_at r self ->
    Forall (fun d => d = Some CENTER) (fst (gaze_directions self frames w h))
    /\ settled_at r (snd (gaze_directions self frames w h))
    /\ exists xs, length xs = length frames
                  /\ snd (gaze_directions self frames w h) = update_baselines self xs.
Proof.
  induction 1 as [|lm rest (x & Hx & Hr) _ IH]; intros self Htab Hset.
  - split; [constructor | split; [exact Hset | now exists []]].
  - rewrite gaze_directions_cons. cbn [fst snd].
    rewrite get_gaze_direction_unfold, <- (frame_avg_ratio_tables s0 self lm w h Htab), Hx.
    destruct (settled_at_step r x self Hset Hr) as (Hset' & Hc).
    rewrite classify_state.
    destruct (IH (_update_baseline self x)) as (Hall & Hfin & xs & Hlen & Hrun).
    { apply (same_tables_trans s0 self); [exact Htab | repeat split]. }
    { exact Hset'. }
    split; [now constructor|]. split; [exact Hfin|].
    exists (x :: xs). split; [simpl; now rewrite Hlen | exact Hrun].
Qed.

(** X8: constant gaze.  From a fresh tracker, frames whose average ratio is
    constantly [r] all classify CENTER, before and after the baseline is
    established. *)
Theorem constant_gaze_is_center
        (left_eye right_eye left_iris right_iris : list (nat * nat))
        (frames : list Landmarks) (w h : option Z) (r : Q) :
  let fresh := GazeTracker_init left_eye right_eye left_iris right_iris in
  Forall (fun lm => exists x, frame_avg_ratio fresh lm w h = Some x /\ x == r) frames ->
  fst (gaze_directions fresh frames w h) = repeat (Some CENTER) (length frames).
Proof.
  intros fresh Hframes.
  destruct (gaze_run_settled fresh r w h frames Hframes fresh) as (Hall & _).
  { apply same_tables_refl. }
  { split; [constructor | discriminate]. }
  rewrite <- (gaze_directions_length frames w h fresh).
  induction Hall as [|d ds -> _ IH]; [reflexivity|].
  cbn [length repeat]. now rewrite <- IH.
Qed.

Lemma constant_gaze_is_center_witness :
  fst (gaze_directions mesh_tracker (repeat (Some (face 478 0.3 0.002)) 12)
                       (Some 640%Z) (Some 480%Z))
  = repeat (Some CENTER) 12.
Proof.
  apply (constant_gaze_is_center
           FACEMESH_LEFT_EYE FACEMESH_RIGHT_EYE FACEMESH_LEFT_IRIS FACEMESH_RIGHT_IRIS
           (repeat (Some (face 478 0.3 0.002)) 12) (Some 640%Z) (Some 480%Z) 0.52).
  apply Forall_forall. intros lm Hin. apply repeat_spec in Hin. subst lm.
  eexists. split; [vm_compute; reflexivity | vm_compute; reflexivity].
Defined.

(** ** Baseline window from any state *)

Lemma window_push (l : list Q) (x : Q) :
  (if (baseline_max_samples <? length (skipn (length l - 30) l ++ [x]))%nat
   then tl (skipn (length l - 30) l ++ [x])
   else skipn (length l - 30) l ++ [x])
  = skipn (length (l ++ [x]) - 30) (l ++ [x]).
Proof.
  rewrite !length_app, length_skipn. cbn [length]. unfold baseline_max_samples.
  destruct (Nat.ltb_spec 30 (length l - (length l - 30) + 1)) as [Hfull | Hroom].
  - assert (30 <= length l)%nat as Hlen by lia.
    replace (length l + 1 - 30)%nat with (S (length l - 30)) by lia.
    rewrite (skipn_app (S (length l - 30))).
    replace (S (length l - 30) - length l)%nat with 0%nat by lia.
    rewrite skipn_O.
    destruct (skipn (length l - 30) l) as [|y ys] eqn:E.
    + apply (f_equal (@length Q)) in E. rewrite length_skipn in E. simpl in E. lia.
    + cbn [app tl]. f_equal.
      replace (S (length l - 30)) with (1 + (length l - 30))%nat by lia.
      rewrite <- skipn_skipn, E. reflexivity.
  - replace (length l - 30)%nat with 0%nat by lia.
    replace (length l + 1 - 30)%nat with 0%nat by lia.
    reflexivity.
Qed.

Lemma baseline_window_from (self : GazeTracker) (samples : list Q) :
  (length (baseline_ratios self) <= 30)%nat ->
  baseline_ratios (update_baselines self samples)
  = skipn (length (baseline_ratios self ++ samples) - 30) (baseline_ratios self ++ samples).
Proof.
  intros Hlen. induction samples as [|x samples IH] using rev_ind.
  - rewrite app_nil_r. replace (length (baseline_ratios self) - 30)%nat with 0%nat by lia.
    reflexivity.
  - rewrite update_baselines_snoc, _update_baseline_ratios, IH, app_assoc.
    apply window_push.
Qed.

(** X9: the baseline depends on the last 30 samples only.  After at least 30
    updates the window is exactly the last 30 samples pushed, so two trackers
    with different histories that then receive the same 30 or more samples
    end with the same window and the same baseline average. *)
Theorem baseline_forgets_after_30 (s1 s2 : GazeTracker) (samples : list Q) :
  (length (baseline_ratios s1) <= 30)%nat ->
  (length (baseline_ratios s2) <= 30)%nat ->
  (30 <= length samples)%nat ->
  baseline_ratios (update_baselines s1 samples) = skipn (length samples - 30) samples
  /\ baseline_ratios (update_baselines s2 samples) = baseline_ratios (update_baselines s1 samples)
  /\ baseline_avg (update_baselines s2 samples) = baseline_avg (update_baselines s1 samples).
Proof.
  intros H1 H2 Hlen.
  assert (forall s, (length (baseline_ratios s) <= 30)%nat ->
                    baseline_ratios (update_baselines s samples)
                    = skipn (length samples - 30) samples) as Hwin.
  { intros s Hs. rewrite (baseline_window_from s samples Hs), length_app.
    replace (length (baseline_ratios s) + length samples - 30)%nat
      with (length (baseline_ratios s) + (length samples - 30))%nat by lia.
    rewrite skipn_app, (skipn_all2 (baseline_ratios s)) by lia. cbn [app].
    f_equal. lia. }
  split; [now apply Hwin|]. split; [now rewrite !Hwin|].
  destruct samples as [|x samples] using rev_ind; [simpl in Hlen; lia|].
  clear IHsamples.
  rewrite !update_baselines_snoc, !_update_baseline_avg, <- !update_baselines_snoc.
  rewrite !Hwin by assumption.
  assert ((min_samples <=? length (skipn (length (samples ++ [x]) - 30) (samples ++ [x])))%nat
          = true) as ->.
  { apply Nat.leb_le. rewrite length_skipn. unfold min_samples. lia. }
  reflexivity.
Qed.

Lemma baseline_forgets_after_30_witness :
  baseline_ratios (update_baselines settled_tracker (ramp 35)) = skipn 5 (ramp 35)
  /\ baseline_avg (update_baselines mesh_tracker (ramp 35))
     = baseline_avg (update_baselines settled_tracker (ramp 35)).
Proof.
  destruct (baseline_forgets_after_30 settled_tracker mesh_tracker (ramp 35))
    as (Hwin & _ & Havg).
  - vm_compute. lia.
  - vm_compute. lia.
  - vm_compute. lia.
  - split; [exact Hwin | exact Havg].
Defined.

(** ** Baseline range *)

Lemma unit_window_step (self : GazeTracker) (x : Q) :
  Forall (fun y => 0 <= y /\ y <= 1) (baseline_ratios self) ->
  (forall v, baseline_avg self = Some v -> 0 <= v /\ v <= 1) ->
  0 <= x /\ x <= 1 ->
  Forall (fun y => 0 <= y /\ y <= 1) (baseline_ratios (_update_baseline self x))
  /\ (forall v, baseline_avg (_update_baseline self x) = Some v -> 0 <= v /\ v <= 1).
Proof.
  intros Hwin Havg Hx.
  assert (Forall (fun y => 0 <= y /\ y <= 1) (baseline_ratios (_update_baseline self x)))
    as Hwin'.
  { rewrite _update_baseline_ratios.
    assert (Forall (fun y => 0 <= y /\ y <= 1) (baseline_ratios self ++ [x])) as Happ
        by (apply Forall_app; split; [assumption | now constructor]).
    destruct (_ <? _)%nat; [|exact Happ].
    destruct (baseline_ratios self ++ [x]); [constructor | now inversion Happ]. }
  split; [exact Hwin'|].
  intros v. rewrite _update_baseline_avg.
  destruct (Nat.leb_spec min_samples (length (baseline_ratios (_update_baseline self x))))
    as [Hlen | Hlen]; [|apply Havg].
  assert (baseline_ratios (_update_baseline self x) <> []) as Hne.
  { intros E. rewrite E in Hlen. unfold min_samples in Hlen. simpl in Hlen. lia. }
  intros [= <-]. exact (mean_bounds 0 1 _ Hne Hwin').
Qed.

(** X10: whatever the frames, the samples in the baseline window of a
    tracker driven by [get_gaze_direction] from a fresh state lie between 0
    and 1, and so does the baseline average once it is defined. *)
Theorem baseline_stays_in_unit_interval
        (left_eye right_eye left_iris right_iris : list (nat * nat))
        (frames : list Landmarks) (w h : option Z) :
  let final := snd (gaze_directions
                      (GazeTracker_init left_eye right_eye left_iris right_iris)
                      frames w h) in
  Forall (fun y => 0 <= y /\ y <= 1) (baseline_ratios final)
  /\ forall v, baseline_avg final = Some v -> 0 <= v /\ v <= 1.
Proof.
  intros final. subst final.
  assert (forall frames self,
             Forall (fun y => 0 <= y /\ y <= 1) (baseline_ratios self) ->
             (forall v, baseline_avg self = Some v -> 0 <= v /\ v <= 1) ->
             Forall (fun y => 0 <= y /\ y <= 1)
                    (baseline_ratios (snd (gaze_directions self frames w h)))
             /\ forall v, baseline_avg (snd (gaze_directions self frames w h)) = Some v ->
                          0 <= v /\ v <= 1) as Hgen.
  { clear. induction frames as [|lm rest IH]; intros self Hwin Havg.
    - split; assumption.
    - rewrite gaze_directions_cons. cbn [snd].
      rewrite get_gaze_direction_unfold.
      destruct (frame_avg_ratio self lm w h) as [x|] eqn:Hx.
      + rewrite classify_state.
        destruct (unit_window_step self x Hwin Havg (frame_avg_ratio_unit _ _ _ _ _ Hx)).
        now apply IH.
      + now apply IH. }
  apply Hgen; [constructor | discriminate].
Qed.

(** ** Blink and gaze are independent *)

Lemma blink_decide_after_update (self : GazeTracker) (x o t : Q) :
  blink_decide (_update_baseline self x) o t
  = (fst (blink_decide self o t), _update_baseline (snd (blink_decide self o t)) x).
Proof.
  unfold blink_decide.
  change (previous_eye_ratio (_update_baseline self x)) with (previous_eye_ratio self).
  change (last_blink_time (_update_baseline self x)) with (last_blink_time self).
  destruct (_ && _); reflexivity.
Qed.

Lemma classify_after_blink (self : GazeTracker) (x : Q) (prev : option Q) (last : Q) :
  classify (set_blink self prev last) x
  = (fst (classify self x), set_blink (snd (classify self x)) prev last).
Proof.
  unfold classify.
  change (baseline_avg (_update_baseline (set_blink self prev last) x))
    with (baseline_avg (_update_baseline self x)).
  destruct (baseline_avg (_update_baseline self x)); [|reflexivity].
  destruct (Qlt_bool _ gaze_threshold); [|destruct (Qlt_bool _ 0)]; reflexivity.
Qed.

(** X11: the two per-frame methods do not interact.  [detect_blink] leaves
    the baseline window and average alone, [get_gaze_direction] leaves
    [previous_eye_ratio] and [last_blink_time] alone, and calling them in
    either order on a frame gives the same blink result, the same direction
    and the same final state. *)
Theorem blink_and_gaze_commute
        (self : GazeTracker) (landmarks : Landmarks) (t : Q) (w h : option Z) :
  let blink := detect_blink self landmarks t in
  let gaze := get_gaze_direction self landmarks w h in
  baseline_ratios (snd blink) = baseline_ratios self
  /\ baseline_avg (snd blink) = baseline_avg self
  /\ previous_eye_ratio (snd gaze) = previous_eye_ratio self
  /\ last_blink_time (snd gaze) = last_blink_time self
  /\ fst (get_gaze_direction (snd blink) landmarks w h) = fst gaze
  /\ fst (detect_blink (snd gaze) landmarks t) = fst blink
  /\ snd (get_gaze_direction (snd blink) landmarks w h)
     = snd (detect_blink (snd gaze) landmarks t).
Proof.
  cbv zeta.
  pose proof (detect_blink_tables self landmarks t) as Htb.
  pose proof (get_gaze_direction_tables self landmarks w h) as Htg.
  rewrite (get_gaze_direction_unfold (snd (detect_blink self landmarks t))).
  rewrite (detect_blink_unfold (snd (get_gaze_direction self landmarks w h))).
  rewrite <- (frame_avg_ratio_tables _ _ landmarks w h Htb).
  rewrite <- (frame_opening_tables _ _ landmarks Htg).
  rewrite get_gaze_direction_unfold, detect_blink_unfold.
  destruct (frame_opening self landmarks) as [o|];
    destruct (frame_avg_ratio self landmarks w h) as [x|]; cbn [fst snd].
  - rewrite !classify_state, blink_decide_after_update. cbn [fst snd].
    unfold blink_decide. destruct (_ && _); cbn [fst snd];
      rewrite classify_after_blink, classify_state; repeat split.
  - unfold blink_decide. destruct (_ && _); repeat split.
  - rewrite !classify_state. repeat split.
  - repeat split.
Qed.

(** ** Blink detector: when it fires *)

(** X12: [detect_blink] returns true exactly when the frame is not
    degenerate, its normalized opening is below the threshold 0.18, the
    previous opening was undefined or at least the threshold, and more than
    the cooldown 0.15 has passed since [last_blink_time]; it then records the
    clock in [last_blink_time]. *)
Theorem blink_emitted_iff (self : GazeTracker) (landmarks : Landmarks) (t : Q) :
  (fst (detect_blink self landmarks t) = true
   <-> exists o,
      frame_opening self landmarks = Some o
      /\ o < blink_threshold
      /\ (previous_eye_ratio self = None
          \/ exists p, previous_eye_ratio self = Some p /\ blink_threshold <= p)
      /\ blink_cooldown < t - last_blink_time self)
  /\ (fst (detect_blink self landmarks t) = true ->
      last_blink_time (snd (detect_blink self landmarks t)) = t).
Proof.
  rewrite detect_blink_unfold.
  destruct (frame_opening self landmarks) as [o|]; cbn [fst snd].
  - unfold blink_decide.
    destruct (Qlt_bool o blink_threshold) eqn:Eo;
      destruct (previous_eye_ratio self) as [p|] eqn:Ep;
      try destruct (Qle_bool blink_threshold p) eqn:Epp;
      destruct (Qlt_bool blink_cooldown (t - last_blink_time self)) eqn:Et;
      cbn [andb fst snd set_blink last_blink_time]; qprops;
      (split; [split; [try discriminate; intros _; exists o; repeat split;
                       try assumption; try (now left); right; now exists p
                      | try reflexivity;
                        intros (o' & [= <-] & Ho & Hp & Ht);
                        try (destruct Hp as [Hp | (p' & [= <-] & Hp)]; try discriminate);
                        exfalso; lra]
              | try discriminate; reflexivity]).
  - split; [split; [discriminate | intros (o & Ho & _); discriminate] | discriminate].
Qed.

(** X13: a closed eye fires once.  In a run of frames that are all below the
    blink threshold, no frame after the first returns true, however long the
    eye stays shut and whatever the clock. *)
Theorem held_closed_eye_fires_once (self : GazeTracker) (frames : list (Landmarks * Q)) :
  Forall (fun fr => exists o, frame_opening self (fst fr) = Some o /\ o < blink_threshold)
         frames ->
  Forall (fun b => b = false) (tl (fst (detect_blinks self frames))).
Proof.
  assert (forall frames s,
             same_tables self s ->
             (exists p, previous_eye_ratio s = Some p /\ p < blink_threshold) ->
             Forall (fun fr => exists o, frame_opening self (fst fr) = Some o
                                         /\ o < blink_threshold) frames ->
             Forall (fun b => b = false) (fst (detect_blinks s frames))) as Hgen.
  { clear frames. induction frames as [|fr rest IH]; intros s Htab (p & Hp & Hlt) Hall.
    - constructor.
    - inversion Hall as [|? ? (o & Ho & Hclosed) Hrest]; subst.
      rewrite detect_blinks_cons. cbn [fst].
      rewrite detect_blink_unfold, <- (frame_opening_tables self s _ Htab), Ho.
      rewrite (blink_decide_held s o (snd fr) p Hp Hlt). cbn [fst snd].
      constructor; [reflexivity|].
      apply IH; [repeat split; apply Htab | now exists o | exact Hrest]. }
  intros Hall. destruct frames as [|fr rest]; [constructor|].
  inversion Hall as [|? ? (o & Ho & Hclosed) Hrest]; subst.
  rewrite detect_blinks_cons. cbn [fst tl].
  apply Hgen; [apply detect_blink_tables | | exact Hrest].
  exists o. split; [|exact Hclosed].
  rewrite detect_blink_unfold, Ho. apply blink_decide_previous.
Qed.

Lemma held_closed_eye_fires_once_witness :
  Forall (fun b => b = false)
         (tl (fst (detect_blinks mesh_tracker
                                 [(Some (face 478 0.1 0), 1000);
                                  (Some (face 478 0.05 0), 1001);
                                  (Some (face 478 0.1 0), 1002)]))).
Proof.
  apply (held_closed_eye_fires_once mesh_tracker).
  repeat (apply Forall_cons;
          [eexists; split; [vm_compute; reflexivity | vm_compute; reflexivity]|]).
  apply Forall_nil.
Defined.

(** X14: frames on which [detect_blink] cannot compute an opening (no
    landmarks, missing eye points, zero eye width) are invisible to it: they
    return false, and removing them from a run changes neither the results on
    the other frames nor the final state. *)
Theorem unusable_frames_are_invisible (self : GazeTracker) (frames : list (Landmarks * Q)) :
  let results := fst (detect_blinks self frames) in
  snd (detect_blinks self frames) = snd (detect_blinks self (filter (usable self) frames))
  /\ map snd (filter (fun p => usable self (fst p)) (combine frames results))
     = fst (detect_blinks self (filter (usable self) frames))
  /\ Forall (fun p => usable self (fst p) = false -> snd p = false) (combine frames results).
Proof.
  cbv zeta.
  assert (forall frames s,
             same_tables self s ->
             snd (detect_blinks s frames) = snd (detect_blinks s (filter (usable self) frames))
             /\ map snd (filter (fun p => usable self (fst p))
                                (combine frames (fst (detect_blinks s frames))))
                = fst (detect_blinks s (filter (usable self) frames))
             /\ Forall (fun p => usable self (fst p) = false -> snd p = false)
                       (combine frames (fst (detect_blinks s frames)))) as Hgen.
  { clear frames. induction frames as [|fr rest IH]; intros s Htab.
    - repeat split. constructor.
    - rewrite detect_blinks_cons. cbn [fst snd combine filter].
      pose proof (detect_blink_tables s (fst fr) (snd fr)) as Hstep.
      destruct (IH (snd (detect_blink s (fst fr) (snd fr))))
        as (Hfin & Hres & Hfalse).
      { apply (same_tables_trans self s); assumption. }
      destruct (usable self fr) eqn:Eu.
      + rewrite detect_blinks_cons. cbn [fst snd map].
        split; [exact Hfin|]. split; [now rewrite Hres|].
        constructor; [cbn [fst snd]; congruence | exact Hfalse].
      + assert (detect_blink s (fst fr) (snd fr) = (false, s)) as Hinv.
        { apply detect_blink_degenerate.
          rewrite <- (frame_opening_tables self s _ Htab).
          unfold usable in Eu. destruct (frame_opening self (fst fr)); [discriminate|].
          reflexivity. }
        rewrite Hinv in *. cbn [fst snd] in *.
        split; [exact Hfin|]. split; [exact Hres|].
        constructor; [reflexivity | exact Hfalse]. }
  apply Hgen, same_tables_refl.
Qed.

(** ** Eye extents *)

Lemma arr_min_le_max (a : list Q) : a <> [] -> arr_min a <= arr_max a.
Proof.
  intros Hne. destruct (arr_min_spec a Hne) as (Hall & _).
  destruct (arr_max_spec a Hne) as (_ & Hin).
  rewrite Forall_forall in Hall. now apply Hall.
Qed.

Lemma _get_points_nonempty (landmarks : list Landmark) (indices : list nat)
      (w h : option Z) (points : list Point) :
  _get_points_from_indices landmarks indices w h = Some points -> points <> [].
Proof.
  unfold _get_points_from_indices.
  destruct (collect_points landmarks indices w h); [discriminate|].
  intros [= <-]. discriminate.
Qed.

(** X15: the extents measured by [detect_blink] are never negative: the
    smaller vertical extent and the average eye width are at least 0, and so
    is the normalized opening of a frame that is not degenerate. *)
Theorem eye_opening_nonnegative (self : GazeTracker) (landmarks : Landmarks) :
  (forall min_vertical avg_horizontal,
      eye_extents self landmarks = Some (min_vertical, avg_horizontal) ->
      0 <= min_vertical /\ 0 <= avg_horizontal)
  /\ (forall o, frame_opening self landmarks = Some o -> 0 <= o).
Proof.
  assert (forall mv ah, eye_extents self landmarks = Some (mv, ah) -> 0 <= mv /\ 0 <= ah)
    as Hext.
  { intros mv ah. unfold eye_extents.
    destruct landmarks as [[|lm lms]|]; try discriminate.
    destruct (_get_points_from_indices _ (left_eye_indices self) _ _) as [lp|] eqn:El;
      [|discriminate].
    destruct (_get_points_from_indices _ (right_eye_indices self) _ _) as [rp|] eqn:Er;
      [|discriminate].
    apply _get_points_nonempty in El, Er.
    destruct (_ || _); [discriminate|].
    intros [= <- <-].
    assert (col0 lp <> [] /\ col1 lp <> [] /\ col0 rp <> [] /\ col1 rp <> [])
      as (A & B & C & D).
    { destruct lp; [contradiction|]. destruct rp; [contradiction|].
      repeat split; discriminate. }
    pose proof (arr_min_le_max _ A). pose proof (arr_min_le_max _ B).
    pose proof (arr_min_le_max _ C). pose proof (arr_min_le_max _ D).
    split.
    - unfold py_min. destruct (Qlt_bool _ _); lra.
    - unfold Qdiv. change (/ 2.0) with (10 # 20). lra. }
  split; [exact Hext|].
  intros o. unfold frame_opening.
  destruct (eye_extents self landmarks) as [[mv ah]|] eqn:E; [|discriminate].
  destruct (Hext mv ah eq_refl) as (Hmv & Hah).
  destruct (Qeq_bool ah 0) eqn:Ez; [discriminate|].
  intros [= <-]. apply Qeq_bool_neq in Ez.
  apply Qle_shift_div_l; [|lra].
  destruct (Qlt_le_dec 0 ah) as [Hpos | Hle]; [exact Hpos|].
  exfalso. apply Ez. lra.
Qed.

Lemma eye_opening_nonnegative_witness :
  exists o, frame_opening mesh_tracker (Some (face 478 0.3 0)) = Some o /\ 0 <= o.
Proof.
  eexists. split; [vm_compute; reflexivity|].
  apply (proj2 (eye_opening_nonnegative mesh_tracker (Some (face 478 0.3 0)))).
  vm_compute. reflexivity.
Defined.

(** ** Key actuation: the latch *)

(** X16: in every state the loop reaches, the keys that are down at the
    operating system are exactly those the controller's fields record
    ([current_key], and the up key while [jump_key_pressed]); in particular
    the left and right keys are never down together. *)
Theorem controller_matches_keys_down
        (left_eye right_eye left_iris right_iris : list (nat * nat)) (a : App) :
  reachable (main_init left_eye right_eye left_iris right_iris) a ->
  (forall k, key_down (keyboard a) k = held (keyboard_controller a) k)
  /\ key_down (keyboard a) Key_left && key_down (keyboard a) Key_right = false.
Proof.
  intros Hreach.
  destruct (reachable_coherent _ a (main_init_coherent _ _ _ _) Hreach) as (Hkeys & Hslot & _).
  split; [exact Hkeys|].
  rewrite !Hkeys. unfold held.
  destruct (current_key (keyboard_controller a)) as [[| |]|]; reflexivity.
Qed.

Lemma gazing_left_reachable : reachable mesh_app gazing_left_app.
Proof.
  apply (run_loop_reachable mesh_app gaze_left_frames mesh_app);
    [apply reachable_start | vm_compute; reflexivity].
Qed.

Lemma controller_matches_keys_down_witness :
  key_down (keyboard gazing_left_app) Key_left = true
  /\ key_down (keyboard gazing_left_app) Key_right = false.
Proof.
  destruct (controller_matches_keys_down
              FACEMESH_LEFT_EYE FACEMESH_RIGHT_EYE FACEMESH_LEFT_IRIS FACEMESH_RIGHT_IRIS
              gazing_left_app gazing_left_reachable) as (Hkeys & _).
  split; rewrite Hkeys; vm_compute; reflexivity.
Defined.

(** X17: the directional latch is debounced.  Once [update] has been called
    with a direction and no blink, and no jump is pending, calling it again
    with the same direction and no blink sends no key event and leaves the
    controller unchanged, whatever the clock. *)
Theorem update_same_direction_is_silent
        (self : KeyboardController) (direction : option Direction) (t1 t2 : Q)
        (kc : KeyboardController) (events : list KeyEvent) :
  update self direction false t1 = Some (kc, events) ->
  jump_key_pressed kc = false ->
  update kc direction false t2 = Some (kc, []).
Proof.
  destruct self as [hold ck ld blink start pressed].
  unfold update at 1.
  cbn [jump_hold_duration current_key last_direction last_blink_state
       jump_start_time jump_key_pressed andb negb].
  destruct pressed; [destruct start as [s|]; [destruct (Qle_bool hold (t1 - s))|]|];
    try discriminate;
    destruct direction as [[| |]|]; destruct ld as [[| |]|];
    destruct ck as [[| |]|]; cbn [opt_Key_eqb Key_eqb negb];
    intros [= <- <-]; cbn [jump_key_pressed]; intros Hp; try discriminate Hp;
    reflexivity.
Qed.

Lemma update_same_direction_is_silent_witness :
  exists kc events,
    update (KeyboardController_init 0.6) (Some LEFT) false 1000 = Some (kc, events)
    /\ events = [Press Key_left]
    /\ update kc (Some LEFT) false 1000.03 = Some (kc, []).
Proof.
  eexists. eexists. split; [reflexivity|]. split; [reflexivity|].
  apply (update_same_direction_is_silent
           (KeyboardController_init 0.6) (Some LEFT) 1000 1000.03 _ [Press Key_left]);
    reflexivity.
Defined.

(** X18: the jump key.  [update] presses the up key exactly on a rising
    edge of the blink signal ([is_blink] true after a frame where it was
    false), recording the clock as the start of the hold; it releases the up
    key only when at least [jump_hold_duration] has passed since that
    start. *)
Theorem jump_key_press_and_release
        (self : KeyboardController) (direction : option Direction) (is_blink : bool)
        (t : Q) (kc : KeyboardController) (events : list KeyEvent) :
  current_key self <> Some Key_up ->
  update self direction is_blink t = Some (kc, events) ->
  (In (Press Key_up) events <-> is_blink = true /\ last_blink_state self = false)
  /\ (In (Press Key_up) events ->
      jump_key_pressed kc = true /\ jump_start_time kc = Some t)
  /\ (In (Release Key_up) events ->
      jump_key_pressed kc = false
      /\ exists start, jump_start_time self = Some start
                       /\ jump_hold_duration self <= t - start).
Proof.
  destruct self as [hold ck ld blink start pressed].
  cbn [current_key last_blink_state jump_start_time jump_hold_duration].
  intros Hslot. unfold update.
  cbn [jump_hold_duration current_key last_direction last_blink_state
       jump_start_time jump_key_pressed].
  destruct ck as [[| |]|]; try congruence;
    destruct is_blink; destruct blink; cbn [andb negb];
    destruct pressed; try destruct start as [s|];
    try destruct (Qle_bool hold (t - s)) eqn:Eh;
    try discriminate;
    destruct direction as [[| |]|]; destruct ld as [[| |]|];
    cbn [opt_Key_eqb Key_eqb negb app];
    intros [= <- <-]; cbn [jump_key_pressed jump_start_time In];
    repeat split; intros;
    repeat match goal with
           | H : _ \/ _ |- _ => destruct H
           | H : _ /\ _ |- _ => destruct H
           | H : False |- _ => destruct H
           end;
    try discriminate; auto;
    try (exists s; split; [reflexivity | now apply Qle_bool_iff]).
Qed.

Lemma jump_key_press_and_release_witness :
  exists kc events,
    update (KeyboardController_init 0.6) (Some CENTER) true 1000 = Some (kc, events)
    /\ jump_key_pressed kc = true /\ jump_start_time kc = Some 1000.
Proof.
  eexists. eexists. split; [reflexivity|].
  apply (jump_key_press_and_release
           (KeyboardController_init 0.6) (Some CENTER) true 1000 _ [Press Key_up]).
  - discriminate.
  - reflexivity.
  - now left.
Defined.

(** ** The frame loop: enabling, leaving, losing the face *)

Lemma loop_body_enabled (a : App) (fr : FrameInput) (a' : App) (continue : bool) :
  loop_body a fr = Some (a', continue) ->
  keyboard_enabled a = true -> keyboard_enabled a' = true.
Proof.
  intros Hrun Hen. unfold loop_body in Hrun.
  destruct (match multi_face_landmarks fr with Some _ => _ | None => _ end)
    as [[[tr kc] ev]|]; [|discriminate].
  injection Hrun as <- _. cbn [keyboard_enabled]. rewrite Hen.
  destruct (key fr =? 113)%Z; [reflexivity|].
  now rewrite andb_false_r.
Qed.

(** X19: nothing reaches the keyboard before keyboard input is enabled.  As
    long as [keyboard_enabled] is false no key event has been sent and the
    controller is in its initial state; and once enabled, keyboard input
    stays enabled. *)
Theorem nothing_sent_before_enabled
        (left_eye right_eye left_iris right_iris : list (nat * nat)) (a : App) :
  reachable (main_init left_eye right_eye left_iris right_iris) a ->
  (keyboard_enabled a = false ->
   keyboard a = [] /\ keyboard_controller a = KeyboardController_init 0.6)
  /\ (keyboard_enabled a = true ->
      forall fr a' continue,
        loop_body a fr = Some (a', continue) -> keyboard_enabled a' = true).
Proof.
  intros Hreach. split.
  - induction Hreach as [|a fr a' _ IH Hstep]; intros Hoff.
    + split; reflexivity.
    + destruct (keyboard_enabled a) eqn:Hen.
      * rewrite (loop_body_enabled a fr a' true Hstep Hen) in Hoff. discriminate.
      * destruct (IH eq_refl) as (Hlog & Hkc).
        destruct (loop_body_release a fr (or_intror Hen)) as (tr & en & Hrel).
        rewrite Hrel in Hstep. injection Hstep as <-.
        cbn [keyboard keyboard_controller]. rewrite Hlog, Hkc. split; reflexivity.
  - intros Hen fr a' continue Hstep.
    exact (loop_body_enabled a fr a' continue Hstep Hen).
Qed.

Lemma nothing_sent_before_enabled_witness :
  keyboard mesh_app = []
  /\ keyboard_enabled after_iris_less_app = true.
Proof.
  destruct (nothing_sent_before_enabled
              FACEMESH_LEFT_EYE FACEMESH_RIGHT_EYE FACEMESH_LEFT_IRIS FACEMESH_RIGHT_IRIS
              mesh_app (reachable_start mesh_app)) as (Hoff & _).
  destruct (nothing_sent_before_enabled
              FACEMESH_LEFT_EYE FACEMESH_RIGHT_EYE FACEMESH_LEFT_IRIS FACEMESH_RIGHT_IRIS
              gazing_left_app gazing_left_reachable) as (_ & Hon).
  split.
  - apply Hoff. reflexivity.
  - apply (Hon ltac:(vm_compute; reflexivity) iris_less_frame after_iris_less_app true).
    vm_compute. reflexivity.
Defined.

(** X20: [main] never ends with a key held.  Whether the loop is left with
    the state of the start of an iteration (the camera stops delivering
    frames) or through the [q] key, after [cleanup] the controller holds
    nothing and no key is down. *)
Theorem exit_releases_everything
        (left_eye right_eye left_iris right_iris : list (nat * nat)) (a : App) :
  reachable (main_init left_eye right_eye left_iris right_iris) a
  \/ left_by_q (main_init left_eye right_eye left_iris right_iris) a ->
  all_released (main_exit a).
Proof.
  intros Hexit.
  assert (coherent a) as (Hkeys & _).
  { destruct Hexit as [Hreach | (a1 & fr & Hreach & Hstep)].
    - exact (reachable_coherent _ a (main_init_coherent _ _ _ _) Hreach).
    - apply (loop_body_coherent a1 fr a false); [|exact Hstep].
      exact (reachable_coherent _ a1 (main_init_coherent _ _ _ _) Hreach). }
  unfold main_exit, cleanup.
  destruct (release_all_fields (keyboard_controller a)) as (Hc & Hj & _).
  pose proof (release_all_releases (keyboard_controller a)) as Hrel.
  destruct (release_all (keyboard_controller a)) as [kc events]. cbn [fst snd] in *.
  split; [exact Hc | split; [exact Hj|]].
  intros k. cbn [keyboard]. rewrite key_down_app, Hkeys. apply Hrel.
Qed.

Lemma exit_releases_everything_witness :
  all_released (main_exit gazing_left_app)
  /\ key_down (keyboard gazing_left_app) Key_left = true.
Proof.
  split.
  - apply (exit_releases_everything
             FACEMESH_LEFT_EYE FACEMESH_RIGHT_EYE FACEMESH_LEFT_IRIS FACEMESH_RIGHT_IRIS).
    left. exact gazing_left_reachable.
  - vm_compute. reflexivity.
Defined.

(** X21: losing the face changes nothing in the tracker.  Over any number
    of iterations without a face the blink state, the baseline window and
    the baseline average stay as they were: the baseline is neither reset
    nor advanced. *)
Theorem no_face_keeps_tracker (frames : list FrameInput) :
  forall a a',
    Forall (fun fr => multi_face_landmarks fr = None) frames ->
    run_loop a frames = Some a' ->
    tracker a' = tracker a.
Proof.
  induction frames as [|fr rest IH]; intros a a' Hall Hrun; cbn [run_loop] in Hrun.
  - now injection Hrun as <-.
  - inversion Hall as [|? ? Hnone Hrest]; subst.
    destruct (loop_body_release a fr (or_introl Hnone)) as (tr & en & Hrel).
    assert (tr = tracker a) as ->.
    { unfold loop_body in Hrel. rewrite Hnone in Hrel.
      destruct (release_all (keyboard_controller a)) as [kc ev].
      now injection Hrel as <- _. }
    rewrite Hrel in Hrun.
    destruct (negb (key fr =? 113)%Z); [|discriminate].
    rewrite (IH _ a' Hrest Hrun). reflexivity.
Qed.

Lemma no_face_keeps_tracker_witness :
  exists a',
    run_loop gazing_left_app [frame_of None 1000.33 255; frame_of None 1000.36 255] = Some a'
    /\ tracker a' = tracker gazing_left_app.
Proof.
  eexists. split; [vm_compute; reflexivity|].
  apply (no_face_keeps_tracker [frame_of None 1000.33 255; frame_of None 1000.36 255]
                               gazing_left_app).
  - repeat constructor.
  - vm_compute. reflexivity.
Defined.

(** ** Paired results *)

Lemma _get_points_None (landmarks : list Landmark) (indices : list nat) (w h : option Z) :
  _get_points_from_indices landmarks indices w h = None
  <-> forall idx, In idx indices -> (length landmarks <= idx)%nat.
Proof.
  unfold _get_points_from_indices.
  pose proof (collect_points_nil landmarks indices w h) as Hnil.
  destruct (collect_points landmarks indices w h).
  - split; [intros _; now apply Hnil | reflexivity].
  - split; [discriminate | intros H; apply Hnil in H; discriminate].
Qed.

(** X22: [get_iris_positions] and [get_eye_boundaries] return both values or
    neither, never one side alone; for a landmark sequence both are missing
    exactly when the left or the right subset has no index in range. *)
Theorem paired_results_both_or_neither
        (self : GazeTracker) (landmarks : Landmarks) (w h : option Z) :
  (fst (get_iris_positions self landmarks w h) = None
   <-> snd (get_iris_positions self landmarks w h) = None)
  /\ (fst (get_eye_boundaries self landmarks w h) = None
      <-> snd (get_eye_boundaries self landmarks w h) = None)
  /\ (forall lms,
         landmarks = Some lms ->
         (fst (get_iris_positions self landmarks w h) = None
          <-> (forall idx, In idx (left_iris_indices self) -> (length lms <= idx)%nat)
              \/ (forall idx, In idx (right_iris_indices self) -> (length lms <= idx)%nat))
         /\ (fst (get_eye_boundaries self landmarks w h) = None
             <-> (forall idx, In idx (left_eye_indices self) -> (length lms <= idx)%nat)
                 \/ (forall idx, In idx (right_eye_indices self) -> (length lms <= idx)%nat))).
Proof.
  assert (forall (A : Type) (f : list Point -> A) (lms : list Landmark) (li ri : list nat),
             let res := match lms with
                        | [] => (None, None)
                        | _ :: _ =>
                            match _get_points_from_indices lms li w h,
                                  _get_points_from_indices lms ri w h with
                            | Some lp, Some rp => (Some (f lp), Some (f rp))
                            | _, _ => (None, None)
                            end
                        end in
             (fst res = None <-> snd res = None)
             /\ (fst res = None
                 <-> (forall idx, In idx li -> (length lms <= idx)%nat)
                     \/ (forall idx, In idx ri -> (length lms <= idx)%nat))) as Hpair.
  { intros A f lms li ri res. subst res.
    destruct lms as [|lm lms'].
    - split; [tauto|]. split; [|reflexivity]. intros _. left. intros idx _. simpl. lia.
    - pose proof (_get_points_None (lm :: lms') li w h) as Hl.
      pose proof (_get_points_None (lm :: lms') ri w h) as Hr.
      destruct (_get_points_from_indices (lm :: lms') li w h) as [lp|];
        destruct (_get_points_from_indices (lm :: lms') ri w h) as [rp|]; cbn [fst snd].
      + split; [split; discriminate|]. split; [discriminate|].
        intros [H | H]; [apply Hl in H | apply Hr in H]; discriminate.
      + split; [tauto|]. split; [|reflexivity]. intros _. right. now apply Hr.
      + split; [tauto|]. split; [|reflexivity]. intros _. left. now apply Hl.
      + split; [tauto|]. split; [|reflexivity]. intros _. left. now apply Hl. }
  destruct landmarks as [lms|].
  - pose proof (Hpair Point mean_axis0 lms (left_iris_indices self) (right_iris_indices self))
      as (Hi1 & Hi2).
    pose proof (Hpair EyeBounds get_bounds lms (left_eye_indices self) (right_eye_indices self))
      as (Hb1 & Hb2).
    assert (get_iris_positions self (Some lms) w h
            = match lms with
              | [] => (None, None)
              | _ :: _ =>
                  match _get_points_from_indices lms (left_iris_indices self) w h,
                        _get_points_from_indices lms (right_iris_indices self) w h with
                  | Some lp, Some rp => (Some (mean_axis0 lp), Some (mean_axis0 rp))
                  | _, _ => (None, None)
                  end
              end) as -> by (destruct lms; reflexivity).
    assert (get_eye_boundaries self (Some lms) w h
            = match lms with
              | [] => (None, None)
              | _ :: _ =>
                  match _get_points_from_indices lms (left_eye_indices self) w h,
                        _get_points_from_indices lms (right_eye_indices self) w h with
                  | Some lp, Some rp => (Some (get_bounds lp), Some (get_bounds rp))
                  | _, _ => (None, None)
                  end
              end) as -> by (destruct lms; reflexivity).
    split; [exact Hi1|]. split; [exact Hb1|].
    intros lms' [= <-]. split; assumption.
  - cbn [get_iris_positions get_eye_boundaries fst snd].
    split; [tauto|]. split; [tauto|]. intros lms' Hd. discriminate.
Qed.

(** ** Instances *)

Lemma baseline_stays_in_unit_interval_witness :
  Forall (fun y => 0 <= y /\ y <= 1)
         (baseline_ratios
            (snd (gaze_directions mesh_tracker
                                  [Some (face 478 0.3 0.03); Some (face 478 0.3 (- 0.2))]
                                  (Some 640%Z) (Some 480%Z)))).
Proof.
  apply (baseline_stays_in_unit_interval
           FACEMESH_LEFT_EYE FACEMESH_RIGHT_EYE FACEMESH_LEFT_IRIS FACEMESH_RIGHT_IRIS
           [Some (face 478 0.3 0.03); Some (face 478 0.3 (- 0.2))]
           (Some 640%Z) (Some 480%Z)).
Defined.

Lemma blink_emitted_iff_witness :
  fst (detect_blink mesh_tracker (Some (face 478 0.1 0)) 1000) = true
  /\ last_blink_time (snd (detect_blink mesh_tracker (Some (face 478 0.1 0)) 1000)) = 1000.
Proof.
  assert (fst (detect_blink mesh_tracker (Some (face 478 0.1 0)) 1000) = true) as Hfire.
  { apply (proj1 (blink_emitted_iff mesh_tracker (Some (face 478 0.1 0)) 1000)).
    eexists. split; [vm_compute; reflexivity|].
    split; [vm_compute; reflexivity|].
    split; [left; reflexivity | vm_compute; reflexivity]. }
  split; [exact Hfire|].
  exact (proj2 (blink_emitted_iff mesh_tracker (Some (face 478 0.1 0)) 1000) Hfire).
Defined.

Lemma unusable_frames_are_invisible_witness :
  snd (detect_blinks mesh_tracker
                     [(Some (face 478 0.1 0), 1000); (None, 1001);
                      (Some (face 478 0.1 0), 1002)])
  = snd (detect_blinks mesh_tracker
                       [(Some (face 478 0.1 0), 1000); (Some (face 478 0.1 0), 1002)]).
Proof.
  exact (proj1 (unusable_frames_are_invisible
                  mesh_tracker
                  [(Some (face 478 0.1 0), 1000); (None, 1001);
                   (Some (face 478 0.1 0), 1002)])).
Defined.

Lemma paired_results_both_or_neither_witness :
  fst (get_iris_positions mesh_tracker (Some (face 468 0.3 0)) (Some 640%Z) (Some 480%Z)) = None
  /\ snd (get_iris_positions mesh_tracker (Some (face 468 0.3 0)) (Some 640%Z) (Some 480%Z))
     = None.
Proof.
  destruct (paired_results_both_or_neither
              mesh_tracker (Some (face 468 0.3 0)) (Some 640%Z) (Some 480%Z))
    as (Hboth & _ & Hiff).
  assert (fst (get_iris_positions mesh_tracker (Some (face 468 0.3 0))
                                  (Some 640%Z) (Some 480%Z)) = None) as Hleft.
  { apply (proj1 (Hiff (face 468 0.3 0) eq_refl)).
    left. intros idx Hin.
    assert (Forall (fun i => (468 <= i)%nat) (left_iris_indices mesh_tracker)) as Hall
        by (vm_compute; repeat constructor).
    rewrite Forall_forall in Hall. specialize (Hall idx Hin).
    unfold face. rewrite length_map, length_seq. exact Hall. }
  split; [exact Hleft | now apply Hboth].
Defined.

(** * Established baselines and well-formed frames *)

(** ** Deviation classification against an established baseline *)

Lemma fold_sum_acc (l : list Q) : forall acc, fold_left Qplus l acc == acc + py_sum l.
Proof.
  unfold py_sum. induction l as [|y l IH]; intros acc; cbn [fold_left].
  - lra.
  - rewrite (IH (acc + y)), (IH (0 + y)). lra.
Qed.

Lemma py_sum_cons (e : Q) (l : list Q) : py_sum (e :: l) == e + py_sum l.
Proof. unfold py_sum at 1. cbn [fold_left]. rewrite fold_sum_acc. lra. Qed.

Lemma py_len_of_length {A} (l : list A) (n : nat) :
  length l = n -> py_len l = inject_Z (Z.of_nat n).
Proof. intros <-. reflexivity. Qed.

(** C4, counterexample: a full window that averages 0.5 without being
    constant.  The frame at 0.52 evicts the sample 0, the recomputed
    baseline rises to 15.52 / 30, and the frame classifies CENTER. *)
Lemma skewed_window_misclassifies : ~ deviation_from_established_baseline.
Proof.
  intros claim.
  pose (x := match frame_avg_ratio skewed_tracker (Some (face 478 0.3 0.002))
                                   (Some 640%Z) (Some 480%Z) with
             | Some v => v
             | None => 0
             end).
  destruct (claim skewed_tracker 0.5 (Some (face 478 0.3 0.002))
                  (Some 640%Z) (Some 480%Z) x) as (Hright & _).
  - vm_compute. reflexivity.
  - eexists. split; [vm_compute; reflexivity | vm_compute; reflexivity].
  - vm_compute. reflexivity.
  - assert (fst (get_gaze_direction skewed_tracker (Some (face 478 0.3 0.002))
                                    (Some 640%Z) (Some 480%Z)) = Some CENTER) as Hcenter
        by (vm_compute; reflexivity).
    rewrite Hright in Hcenter; [discriminate|].
    vm_compute. reflexivity.
Qed.

(** The window of the counterexample: 30 samples of average 0.5, the oldest
    being 0; both sample values are average ratios of frames (the iris at
    the left corner of the eye, and slightly right of its centre). *)
Lemma skewed_window_shape :
  length (baseline_ratios skewed_tracker) = 30%nat
  /\ py_sum (baseline_ratios skewed_tracker) / py_len (baseline_ratios skewed_tracker) == 0.5
  /\ hd_error (baseline_ratios skewed_tracker) = Some 0
  /\ (exists x, frame_avg_ratio mesh_tracker (Some (face 478 0.3 (- 0.05)))
                                (Some 640%Z) (Some 480%Z) = Some x /\ x == 0)
  /\ (exists x, frame_avg_ratio mesh_tracker (Some (face 478 0.3 (1 # 580)))
                                (Some 640%Z) (Some 480%Z) = Some x /\ x == 15 # 29).
Proof.
  split; [vm_compute; reflexivity|].
  split; [vm_compute; reflexivity|].
  split; [vm_compute; reflexivity|].
  split; eexists; split; vm_compute; reflexivity.
Qed.

(** C4, amended.  Let the baseline be established on a window of 10 to 30
    samples whose average is [b].  The current sample is pushed into the
    window, the oldest one being evicted when the window is full, before the
    deviation is computed against the recomputed average, with threshold
    0.015.  Then a frame whose [avg_ratio] is [b + 0.02] classifies RIGHT,
    [b - 0.02] LEFT and [b + 0.01] CENTER, provided that, when the window is
    full, its oldest sample lies within 0.13 of [b]; this is the case when
    all the samples equal [b]. *)
Theorem deviation_classification_established
        (self : GazeTracker) (b : Q) (landmarks : Landmarks) (w h : option Z) (x : Q) :
  (10 <= length (baseline_ratios self) <= 30)%nat ->
  py_sum (baseline_ratios self) / py_len (baseline_ratios self) == b ->
  (length (baseline_ratios self) = 30%nat ->
   forall oldest, hd_error (baseline_ratios self) = Some oldest ->
                  b - 0.13 <= oldest /\ oldest <= b + 0.13) ->
  frame_avg_ratio self landmarks w h = Some x ->
  (x == b + 0.02 -> fst (get_gaze_direction self landmarks w h) = Some RIGHT)
  /\ (x == b - 0.02 -> fst (get_gaze_direction self landmarks w h) = Some LEFT)
  /\ (x == b + 0.01 -> fst (get_gaze_direction self landmarks w h) = Some CENTER).
Proof.
  intros (Hlo & Hhi) Hmean Hold Hx.
  rewrite get_gaze_direction_unfold, Hx. unfold classify.
  set (W := baseline_ratios self) in *.
  assert (0 < py_len W) as Hpos.
  { apply py_len_pos. intros E. rewrite E in Hlo. simpl in Hlo. lia. }
  assert (py_sum W == py_len W * b) as Hsum.
  { rewrite <- Hmean. symmetry. apply Qmult_div_r. lra. }
  (* the recomputed average and what it satisfies *)
  assert (exists avg,
             baseline_avg (_update_baseline self x) = Some avg
             /\ ((exists m, 9 <= m /\ avg * (m + 1) == m * b + x)
                 \/ (exists oldest, b - 0.13 <= oldest /\ oldest <= b + 0.13
                                    /\ avg * 30 == 30 * b - oldest + x))) as (avg & Havg & Hcase).
  { rewrite _update_baseline_avg, _update_baseline_ratios. fold W.
    unfold baseline_max_samples, min_samples.
    destruct (Nat.ltb_spec 30 (length (W ++ [x]))) as [Hfull | Hroom].
    - rewrite length_app in Hfull. cbn [length] in Hfull.
      assert (length W = 30%nat) as Hn by lia.
      destruct W as [|oldest T] eqn:EW; [simpl in Hn; lia|].
      cbn [app tl].
      assert (length T = 29%nat) as HT by (simpl in Hn; lia).
      assert ((10 <=? length (T ++ [x]))%nat = true) as ->.
      { apply Nat.leb_le. rewrite length_app, HT. simpl. lia. }
      eexists. split; [reflexivity|]. right.
      destruct (Hold Hn oldest eq_refl) as (Ho1 & Ho2).
      exists oldest. split; [exact Ho1|]. split; [exact Ho2|].
      assert (py_len (T ++ [x]) == 30) as Hlen'.
      { rewrite py_len_snoc, (py_len_of_length T 29 HT). reflexivity. }
      assert (py_len (oldest :: T) == 30) as Hlen
          by (rewrite (py_len_of_length (oldest :: T) 30 Hn); reflexivity).
      rewrite py_sum_cons, Hlen in Hsum.
      rewrite py_sum_snoc.
      assert ((py_sum T + x) / py_len (T ++ [x]) * py_len (T ++ [x]) == py_sum T + x) as Hdiv.
      { rewrite Qmult_comm. apply Qmult_div_r. rewrite Hlen'. discriminate. }
      rewrite Hlen' in Hdiv at 2. rewrite Hdiv. lra.
    - rewrite length_app in Hroom. cbn [length] in Hroom.
      assert ((10 <=? length (W ++ [x]))%nat = true) as ->.
      { apply Nat.leb_le. rewrite length_app. simpl. lia. }
      eexists. split; [reflexivity|]. left.
      exists (py_len W). split.
      + apply (Qle_trans _ (inject_Z (Z.of_nat 10))); [discriminate|].
        now apply py_len_ge.
      + rewrite py_sum_snoc, Hsum, <- (py_len_snoc W x).
        rewrite Qmult_comm. apply Qmult_div_r.
        rewrite py_len_snoc. lra. }
  rewrite Havg. unfold gaze_threshold.
  assert ((x == b + 0.02 -> 0.015 <= x - avg)
          /\ (x == b - 0.02 -> x - avg <= - 0.015)
          /\ (x == b + 0.01 -> 0 <= x - avg /\ x - avg < 0.015)) as (Hr & Hl & Hc).
  { destruct Hcase as [(m & Hm & Hm1) | (oldest & Ho1 & Ho2 & Have)].
    - exact (deviation_bounds m b x avg Hm Hm1).
    - split; [|split]; intros Hxb; [| |split]; lra. }
  split; [|split]; intros Hxb.
  - specialize (Hr Hxb).
    destruct (Qlt_bool (Qabs (x - avg)) 0.015) eqn:E1.
    + apply Qlt_bool_iff, Qabs_lt_iff in E1. lra.
    + destruct (Qlt_bool (x - avg) 0) eqn:E2; [|reflexivity].
      apply Qlt_bool_iff in E2. lra.
  - specialize (Hl Hxb).
    destruct (Qlt_bool (Qabs (x - avg)) 0.015) eqn:E1.
    + apply Qlt_bool_iff, Qabs_lt_iff in E1. lra.
    + destruct (Qlt_bool (x - avg) 0) eqn:E2; [reflexivity|].
      apply Qlt_bool_false_iff in E2. lra.
  - specialize (Hc Hxb).
    destruct (Qlt_bool (Qabs (x - avg)) 0.015) eqn:E1; [reflexivity|].
    exfalso. apply not_true_iff_false in E1. apply E1.
    apply Qlt_bool_iff, Qabs_lt_iff. lra.
Qed.

Lemma deviation_classification_established_witness :
  fst (get_gaze_direction settled_tracker (Some (face 478 0.3 0.002))
                          (Some 640%Z) (Some 480%Z)) = Some RIGHT
  /\ fst (get_gaze_direction wavering_tracker (Some (face 478 0.3 (- 0.002)))
                             (Some 640%Z) (Some 480%Z)) = Some LEFT
  /\ fst (get_gaze_direction wavering_tracker (Some (face 478 0.3 0.001))
                             (Some 640%Z) (Some 480%Z)) = Some CENTER.
Proof.
  pose (ratio_of := fun dx : Q =>
          match frame_avg_ratio mesh_tracker (Some (face 478 0.3 dx))
                                (Some 640%Z) (Some 480%Z) with
          | Some v => v
          | None => 0
          end).
  split; [|split].
  - refine (proj1 (deviation_classification_established
                     settled_tracker 0.5 (Some (face 478 0.3 0.002))
                     (Some 640%Z) (Some 480%Z) (ratio_of 0.002) _ _ _ _) _).
    + vm_compute. lia.
    + vm_compute. reflexivity.
    + intros _ oldest Hold. vm_compute in Hold. injection Hold as <-.
      split; vm_compute; discriminate.
    + vm_compute. reflexivity.
    + vm_compute. reflexivity.
  - refine (proj1 (proj2 (deviation_classification_established
                            wavering_tracker 0.5 (Some (face 478 0.3 (- 0.002)))
                            (Some 640%Z) (Some 480%Z) (ratio_of (- 0.002)) _ _ _ _)) _).
    + vm_compute. lia.
    + vm_compute. reflexivity.
    + intros Hfull. vm_compute in Hfull. discriminate.
    + vm_compute. reflexivity.
    + vm_compute. reflexivity.
  - refine (proj2 (proj2 (deviation_classification_established
                            wavering_tracker 0.5 (Some (face 478 0.3 0.001))
                            (Some 640%Z) (Some 480%Z) (ratio_of 0.001) _ _ _ _)) _).
    + vm_compute. lia.
    + vm_compute. reflexivity.
    + intros Hfull. vm_compute in Hfull. discriminate.
    + vm_compute. reflexivity.
    + vm_compute. reflexivity.
Defined.

(** ** The frame loop on well-formed landmark sets *)

Lemma well_formed_tables (s1 s2 : GazeTracker) (lms : list Landmark) :
  same_tables s1 s2 -> well_formed s1 lms -> well_formed s2 lms.
Proof.
  intros (A & B & C & D). unfold well_formed. now rewrite A, B, C, D.
Qed.

Lemma well_formed_has_direction (self : GazeTracker) (lms : list Landmark) (w h : option Z) :
  well_formed self lms -> fst (get_gaze_direction self (Some lms) w h) <> None.
Proof.
  intros Hwf. unfold well_formed in Hwf.
  inversion Hwf as [|? ? (Hle & Hlea) Hwf1]; subst.
  inversion Hwf1 as [|? ? (Hre & Hrea) Hwf2]; subst.
  inversion Hwf2 as [|? ? (Hli & Hlia) Hwf3]; subst.
  inversion Hwf3 as [|? ? (Hri & Hria) _]; subst.
  assert (exists x, frame_avg_ratio self (Some lms) w h = Some x) as (x & Hx).
  { unfold frame_avg_ratio, get_iris_positions, get_eye_boundaries, _get_points_from_indices.
    rewrite !collect_points_in_range by assumption.
    destruct lms as [|lm lms'].
    { destruct (left_eye_indices self) as [|i ?]; [contradiction|].
      inversion Hlea; subst. simpl in *. lia. }
    destruct (left_iris_indices self) as [|i1 l1]; [contradiction|].
    destruct (right_iris_indices self) as [|i2 l2]; [contradiction|].
    destruct (left_eye_indices self) as [|i3 l3]; [contradiction|].
    destruct (right_eye_indices self) as [|i4 l4]; [contradiction|].
    cbn [map]. cbv beta iota.
    unfold calculate_horizontal_ratio.
    destruct (Qlt_bool _ 1e-6); destruct (Qlt_bool _ 1e-6); eexists; reflexivity. }
  rewrite get_gaze_direction_unfold, Hx. unfold classify.
  destruct (baseline_avg (_update_baseline self x)).
  - destruct (Qlt_bool _ gaze_threshold); [|destruct (Qlt_bool _ 0)]; discriminate.
  - discriminate.
Qed.

(** C1: the landmark sets the extractor delivers have every landmark the
    tracker's tables name.  On such frames, in every state the loop reaches,
    a frame on which the core reports UNKNOWN is a frame without a face; the
    loop then invokes [release_all], and the frame ends with every held
    input released: [current_key] is [None], [jump_key_pressed] is false, and
    neither a directional key nor the blink key is down. *)
Theorem unknown_direction_releases_everything
        (left_eye right_eye left_iris right_iris : list (nat * nat))
        (a : App) (fr : FrameInput) :
  reachable (main_init left_eye right_eye left_iris right_iris) a ->
  (forall lms, multi_face_landmarks fr = Some lms -> well_formed (tracker a) lms) ->
  frame_direction a fr = None ->
  multi_face_landmarks fr = None
  /\ exists a' continue,
      loop_body a fr = Some (a', continue)
      /\ keyboard_controller a' = fst (release_all (keyboard_controller a))
      /\ keyboard a' = keyboard a ++ snd (release_all (keyboard_controller a))
      /\ all_released a'.
Proof.
  intros Hreach Hwf Hdir.
  assert (multi_face_landmarks fr = None) as Hface.
  { destruct (multi_face_landmarks fr) as [lms|] eqn:E; [|reflexivity].
    exfalso. unfold frame_direction in Hdir. rewrite E in Hdir.
    unfold frame_decision in Hdir.
    pose proof (detect_blink_tables (tracker a) (Some lms) (time_blink fr)) as Htab.
    destruct (detect_blink (tracker a) (Some lms) (time_blink fr)) as [is_blink self1].
    cbn [snd] in Htab.
    pose proof (well_formed_has_direction
                  self1 lms (Some (frame_w fr)) (Some (frame_h fr))
                  (well_formed_tables _ _ lms Htab (Hwf lms eq_refl))) as Hsome.
    destruct (get_gaze_direction self1 (Some lms) (Some (frame_w fr)) (Some (frame_h fr)))
      as [direction self2].
    cbn [fst snd] in Hdir, Hsome. contradiction. }
  split; [exact Hface|].
  destruct (reachable_coherent _ a (main_init_coherent _ _ _ _) Hreach) as (Hkeys & _).
  destruct (loop_body_release a fr (or_introl Hface)) as (tr & en & Hrun).
  eexists. eexists. split; [exact Hrun|].
  cbn [keyboard keyboard_controller].
  split; [reflexivity|]. split; [reflexivity|].
  destruct (release_all_fields (keyboard_controller a)) as (Hc & Hj & _).
  split; [|split]; cbn [keyboard keyboard_controller]; [exact Hc | exact Hj |].
  intros k. rewrite key_down_app, Hkeys.
  apply release_all_releases.
Qed.

Lemma unknown_direction_releases_everything_witness :
  key_down (keyboard gazing_left_app) Key_left = true
  /\ exists a' continue,
      loop_body gazing_left_app (frame_of None 1000.33 255) = Some (a', continue)
      /\ all_released a'.
Proof.
  split; [vm_compute; reflexivity|].
  destruct (unknown_direction_releases_everything
              FACEMESH_LEFT_EYE FACEMESH_RIGHT_EYE FACEMESH_LEFT_IRIS FACEMESH_RIGHT_IRIS
              gazing_left_app (frame_of None 1000.33 255))
    as (_ & a' & continue & Hrun & _ & _ & Hrel).
  - exact gazing_left_reachable.
  - intros lms Hface. discriminate Hface.
  - reflexivity.
  - exists a', continue. split; assumption.
Defined.
